(** * Geometry interchange codecs: WKT text and Route JSON

    A shallow embedding of [src/common/format/WKT.js] (class [WKT]) and of
    the [Route] class, with the properties of the two codecs stated and
    proved over the embedding.

    Strings are sequences of code units below 256.  Numbers are the
    integer-valued ones; the model follows the program on those that a
    double holds exactly (up to 2^53 in absolute value), which the
    JavaScript number-to-string conversion prints in plain decimal.
    No property below depends on how a larger number is printed. *)

From Stdlib Require Import Strings.String Strings.Ascii.
From Stdlib Require Import Numbers.DecimalString Numbers.DecimalZ Numbers.DecimalPos.
From Stdlib Require Import Lists.List Arith.PeanoNat ZArith.ZArith micromega.Lia Bool.Bool.
Import ListNotations.

Set Warnings "-register-all".

Local Open Scope list_scope.
Local Open Scope nat_scope.
Local Open Scope string_scope.

(** ** Completion records: a call returns normally or throws *)

Inductive Error : Type :=
| TypeError (what : string)
| ReferenceError (what : string).

Inductive Completion (A : Type) : Type :=
| Normal (a : A)
| Throw (e : Error).

Arguments Normal {A} a.
Arguments Throw {A} e.

Definition bind {A B : Type} (c : Completion A) (f : A -> Completion B) : Completion B :=
  match c with
  | Normal a => f a
  | Throw e => Throw e
  end.

Notation "x <- c ;; k" := (bind c (fun x => k))
  (at level 61, c at next level, right associativity).

Fixpoint mapM {A B : Type} (f : A -> Completion B) (l : list A) : Completion (list B) :=
  match l with
  | [] => Normal []
  | a :: l' => b <- f a ;; bs <- mapM f l' ;; Normal (b :: bs)
  end.

(** ** Primitive values *)

Inductive Value : Type :=
| VUndefined
| VNull
| VNumber (n : Z)
| VString (s : string).

(** The number-to-string conversion, on an integer that a double holds
    exactly (up to 2^53 in absolute value): its decimal digits, with a
    minus sign in front of a negative one. *)
Definition Number_toString (n : Z) : string :=
  NilZero.string_of_int (Z.to_int n).

(** The conversion applied by [+] when the other operand is a string. *)
Definition ToString (v : Value) : string :=
  match v with
  | VUndefined => "undefined"
  | VNull => "null"
  | VNumber n => Number_toString n
  | VString s => s
  end.

(** [v != null && v != undefined]: both tests are the loose inequality, so
    each of them already excludes both values. *)
Definition present (v : Value) : bool :=
  match v with
  | VUndefined | VNull => false
  | _ => true
  end.

(** ** Strings and regular expressions *)

Module Js.

Definition code (c : ascii) : nat := nat_of_ascii c.

Definition in_range (lo hi : nat) (c : ascii) : bool :=
  Nat.leb lo (code c) && Nat.leb (code c) hi.

(** [\s]: tab, line feed, vertical tab, form feed, carriage return, space
    and no-break space. *)
Definition is_space (c : ascii) : bool :=
  in_range 9 13 c || Nat.eqb (code c) 32 || Nat.eqb (code c) 160.

Definition is_upper (c : ascii) : bool := in_range 65 90 c.
Definition is_lower (c : ascii) : bool := in_range 97 122 c.
Definition is_letter (c : ascii) : bool := is_upper c || is_lower c.
Definition is_digit (c : ascii) : bool := in_range 48 57 c.

(** [\w] *)
Definition is_word (c : ascii) : bool :=
  is_letter c || is_digit c || Nat.eqb (code c) 95.

(** [[\n\r]] and its complement [.] *)
Definition is_newline (c : ascii) : bool := Nat.eqb (code c) 10 || Nat.eqb (code c) 13.
Definition is_dot (c : ascii) : bool := negb (is_newline c).

Definition is_char (a : ascii) (c : ascii) : bool := Ascii.eqb a c.

Definition lower_char (c : ascii) : ascii :=
  if is_upper c then ascii_of_nat (code c + 32) else c.

Definition upper_char (c : ascii) : ascii :=
  if is_lower c then ascii_of_nat (code c - 32) else c.

Fixpoint map_string (f : ascii -> ascii) (s : string) : string :=
  match s with
  | EmptyString => EmptyString
  | String c s' => String (f c) (map_string f s')
  end.

Definition toLowerCase : string -> string := map_string lower_char.
Definition toUpperCase : string -> string := map_string upper_char.

(** *** A backtracking matcher

    Patterns are kept as syntax trees; [rmatch] explores them in the
    order a backtracking engine does: greedy quantifiers try one more
    iteration first, lazy ones try the continuation first. *)

Inductive regex : Type :=
| Empty
| Chr (p : ascii -> bool)
| Seq (r1 r2 : regex)
| Opt (r : regex)
| Star (greedy : bool) (r : regex)
| Group (n : nat) (r : regex)
| Bol
| Eol.

Definition Plus (r : regex) : regex := Seq r (Star true r).

(** One given character, and [\s*]. *)
Definition lit (c : ascii) : regex := Chr (is_char c).
Definition ws : regex := Star true (Chr is_space).

Fixpoint seq (rs : list regex) : regex :=
  match rs with
  | [] => Empty
  | [r] => r
  | r :: rs' => Seq r (seq rs')
  end.

Definition captures : Type := list (nat * string).

Fixpoint get_capture (n : nat) (caps : captures) : option string :=
  match caps with
  | [] => None
  | (m, s) :: caps' => if Nat.eqb n m then Some s else get_capture n caps'
  end.

(** The part of [s] in front of its suffix [s']. *)
Definition consumed (s s' : string) : string :=
  substring 0 (String.length s - String.length s') s.

(** The iterations of a quantified sub-pattern [body]: an iteration
    that takes nothing is not repeated; [fuel] bounds their number by
    the length of the text. *)
Fixpoint iterate {R : Type}
         (body : string -> captures -> (string -> captures -> option R) -> option R)
         (greedy : bool) (k : string -> captures -> option R)
         (fuel : nat) (s : string) (caps : captures) {struct fuel} : option R :=
  match fuel with
  | O => k s caps
  | S fuel' =>
      let again :=
        body s caps
          (fun s' caps' =>
             if Nat.ltb (String.length s') (String.length s)
             then iterate body greedy k fuel' s' caps' else None) in
      if greedy then
        match again with
        | Some x => Some x
        | None => k s caps
        end
      else
        match k s caps with
        | Some x => Some x
        | None => again
        end
  end.

Fixpoint rmatch {R : Type} (total : nat) (r : regex) (s : string) (caps : captures)
         (k : string -> captures -> option R) {struct r} : option R :=
  match r with
  | Empty => k s caps
  | Chr p =>
      match s with
      | String c s' => if p c then k s' caps else None
      | EmptyString => None
      end
  | Seq r1 r2 =>
      rmatch total r1 s caps (fun s' caps' => rmatch total r2 s' caps' k)
  | Opt r1 =>
      match rmatch total r1 s caps k with
      | Some x => Some x
      | None => k s caps
      end
  | Star greedy r1 => iterate (rmatch total r1) greedy k (String.length s) s caps
  | Group n r1 =>
      rmatch total r1 s caps (fun s' caps' => k s' ((n, consumed s s') :: caps'))
  | Bol => if Nat.eqb (String.length s) total then k s caps else None
  | Eol =>
      match s with
      | EmptyString => k s caps
      | String _ _ => None
      end
  end.

(** A match attempt at the current position: the text after the match
    and the captures. *)
Definition match_here (total : nat) (r : regex) (s : string) : option (string * captures) :=
  rmatch total r s [] (fun s' caps => Some (s', caps)).

(** The leftmost match: the text in front of it, the text after it and
    the captures. *)
Fixpoint search (total : nat) (r : regex) (s : string) : option (string * string * captures) :=
  match match_here total r s with
  | Some (rest, caps) => Some ("", rest, caps)
  | None =>
      match s with
      | EmptyString => None
      | String c s' =>
          match search total r s' with
          | Some (pre, rest, caps) => Some (String c pre, rest, caps)
          | None => None
          end
      end
  end.

(** [r.exec(s)] for a pattern without flags, reduced to its captures. *)
Definition exec (r : regex) (s : string) : option captures :=
  match search (String.length s) r s with
  | Some (_, _, caps) => Some caps
  | None => None
  end.

(** Replacement templates: literal text and [$n]. *)
Inductive template_item : Type :=
| Lit (s : string)
| Ref (n : nat).

Fixpoint expand (t : list template_item) (caps : captures) : string :=
  match t with
  | [] => ""
  | Lit s :: t' => s ++ expand t' caps
  | Ref n :: t' =>
      match get_capture n caps with
      | Some s => s ++ expand t' caps
      | None => expand t' caps
      end
  end.

(** [s.replace(r, t)] for a pattern without the [g] flag. *)
Definition replace (r : regex) (t : list template_item) (s : string) : string :=
  match search (String.length s) r s with
  | Some (pre, rest, caps) => pre ++ expand t caps ++ rest
  | None => s
  end.

(** [s.replace(r, t)] for a pattern with the [g] flag: matches are
    looked for from left to right, each after the end of the previous
    one (one code unit further after an empty match). *)
Fixpoint replace_all_from (fuel total : nat) (r : regex) (t : list template_item)
         (s : string) : string :=
  match fuel with
  | O => s
  | S fuel' =>
      match search total r s with
      | None => s
      | Some (pre, rest, caps) =>
          let tail :=
            if Nat.ltb (String.length rest) (String.length s) then replace_all_from fuel' total r t rest
            else
              match rest with
              | EmptyString => ""
              | String c rest' => String c (replace_all_from fuel' total r t rest')
              end in
          pre ++ expand t caps ++ tail
      end
  end.

Definition replace_all (r : regex) (t : list template_item) (s : string) : string :=
  replace_all_from (S (String.length s)) (String.length s) r t s.

(** [s.split(r)]: the pattern is tried at each position [q] after the
    start [p] of the current piece; a match that ends at [p] is skipped. *)
Fixpoint split_from (fuel total : nat) (r : regex) (piece s : string) : list string :=
  match fuel with
  | O => [piece ++ s]
  | S fuel' =>
      match s with
      | EmptyString => [piece]
      | String c s' =>
          match match_here total r s with
          | Some (rest, _) =>
              if Nat.eqb (String.length rest) (String.length s) && Nat.eqb (String.length piece) 0
              then split_from fuel' total r (piece ++ String c "") s'
              else piece :: split_from fuel' total r "" rest
          | None => split_from fuel' total r (piece ++ String c "") s'
          end
      end
  end.

Definition split (r : regex) (s : string) : list string :=
  match s with
  | EmptyString =>
      match match_here 0 r s with
      | Some _ => []
      | None => [s]
      end
  | _ => split_from (2 * String.length s + 2) (String.length s) r "" s
  end.

(** [s.split(sep)] for a separator of one code unit. *)
Fixpoint split_char_from (sep : ascii) (piece s : string) : list string :=
  match s with
  | EmptyString => [piece]
  | String c s' =>
      if Ascii.eqb c sep then piece :: split_char_from sep "" s'
      else split_char_from sep (piece ++ String c "") s'
  end.

Definition split_char (sep : ascii) (s : string) : list string :=
  split_char_from sep "" s.

(** [a.join(sep)] on an array of strings. *)
Fixpoint join (sep : string) (l : list string) : string :=
  match l with
  | [] => ""
  | [s] => s
  | s :: l' => s ++ sep ++ join sep l'
  end.

(** Every character of the text satisfies [p]; the text has no [c]. *)
Fixpoint all_chars (p : ascii -> bool) (s : string) : bool :=
  match s with
  | EmptyString => true
  | String c s' => p c && all_chars p s'
  end.

Definition free_of (c : ascii) (s : string) : bool :=
  all_chars (fun a => negb (is_char c a)) s.

(** The text without its last character, when that is [c]. *)
Fixpoint drop_last (c : ascii) (s : string) : string :=
  match s with
  | EmptyString => EmptyString
  | String a EmptyString => if Ascii.eqb a c then EmptyString else s
  | String a s' => String a (drop_last c s')
  end.

(** A text that does not begin with a character in [p]. *)
Definition not_headed (p : ascii -> bool) (s : string) : Prop :=
  match s with
  | EmptyString => True
  | String c _ => p c = false
  end.

End Js.

(** ** The geometry model *)

(** Modelled from the spec: the geometry classes are missing from the
    sources.  The class names are those that the codec reads in
    [CLASS_NAME]. *)
Inductive ClassName : Type :=
| MultiPoint
| LineString
| LinearRing
| MultiLineString
| Polygon
| MultiPolygon
| Collection.

(** Modelled from the spec: the geometry classes are missing from the
    sources.  Following the data model they are plain value aggregates.
    An instance is what an application hands to [write]: the codec
    reads the properties [x] and [y] of a point and the [components] of
    every other kind, whatever values they hold.  No constructor of
    these classes is modelled: the codec itself never gets to call
    one. *)
Inductive Geometry : Type :=
| Point (x y : Value)
| Compound (cls : ClassName) (components : list Geometry).

Definition CLASS_NAME (g : Geometry) : string :=
  match g with
  | Point _ _ => "SuperMap.Geometry.Point"
  | Compound MultiPoint _ => "SuperMap.Geometry.MultiPoint"
  | Compound LineString _ => "SuperMap.Geometry.LineString"
  | Compound LinearRing _ => "SuperMap.Geometry.LinearRing"
  | Compound MultiLineString _ => "SuperMap.Geometry.MultiLineString"
  | Compound Polygon _ => "SuperMap.Geometry.Polygon"
  | Compound MultiPolygon _ => "SuperMap.Geometry.MultiPolygon"
  | Compound Collection _ => "SuperMap.Geometry.Collection"
  end.

(** [g.x], [g.y] and [g.components]; a property the object does not have
    reads as [undefined]. *)
Definition x_of (g : Geometry) : Value :=
  match g with
  | Point x _ => x
  | Compound _ _ => VUndefined
  end.

Definition y_of (g : Geometry) : Value :=
  match g with
  | Point _ y => y
  | Compound _ _ => VUndefined
  end.

Definition components_of (g : Geometry) : option (list Geometry) :=
  match g with
  | Point _ _ => None
  | Compound _ cs => Some cs
  end.

(** Modelled from the spec: [SuperMap.Feature.Vector] is missing from
    the sources.  [new SuperMap.Feature.Vector(geometry)] holds its
    geometry. *)
Inductive Feature : Type :=
| Vector (geometry : Geometry).

Definition geometry (f : Feature) : Geometry :=
  match f with
  | Vector g => g
  end.

(** [a[i]] on an array of strings. *)
Definition item (a : list string) (i : nat) : Value :=
  match nth_error a i with
  | Some s => VString s
  | None => VUndefined
  end.

(** Modelled from the spec: [SuperMap.String.trim] is missing from the
    sources.  It removes the white space at both ends of its argument. *)
Fixpoint trim_left (s : string) : string :=
  match s with
  | String c s' => if Js.is_space c then trim_left s' else s
  | EmptyString => EmptyString
  end.

Fixpoint trim_right (s : string) : string :=
  match s with
  | EmptyString => EmptyString
  | String c s' =>
      match trim_right s' with
      | EmptyString => if Js.is_space c then EmptyString else String c EmptyString
      | t => String c t
      end
  end.

Definition trim (s : string) : string := trim_right (trim_left s).

(** ** The WKT codec ([src/common/format/WKT.js]) *)

Module WKT.

Import Js.

(** *** [regExes] *)

(** [typeStr]: from the start, white space, a run of word characters
    (group 1), white space, an opening parenthesis, white space, a
    greedy run of characters other than line breaks (group 2), white
    space, a closing parenthesis, white space, the end. *)
Definition typeStr : regex :=
  seq [Bol; ws; Group 1 (Plus (Chr is_word)); ws; lit "("; ws;
       Group 2 (Star true (Chr is_dot)); ws; lit ")"; ws; Eol].

(** [spaces]: one or more white-space characters. *)
Definition spaces : regex := Plus (Chr is_space).

(** [parenComma]: a closing parenthesis, a comma and an opening
    parenthesis, with optional white space around the comma. *)
Definition parenComma : regex := seq [lit ")"; ws; lit ","; ws; lit "("].

(** [doubleParenComma]: two closing parentheses, a comma and two
    opening parentheses, with optional white space between them. *)
Definition doubleParenComma : regex :=
  seq [lit ")"; ws; lit ")"; ws; lit ","; ws; lit "("; ws; lit "("].

(** [trimParens]: from the start, white space, an optional opening
    parenthesis, a lazy run of characters other than line breaks
    (group 1), an optional closing parenthesis, white space, the end. *)
Definition trimParens : regex :=
  seq [Bol; ws; Opt (lit "("); Group 1 (Star false (Chr is_dot)); Opt (lit ")"); ws; Eol].

(** The two patterns written in place: a comma, white space and a
    letter (group 1), in [parse.geometrycollection]; a line feed or a
    carriage return, in [read]. *)
Definition commaLetter : regex := seq [lit ","; ws; Group 1 (Chr is_letter)].
Definition lineBreak : regex := Chr is_newline.

(** *** What [read] can return

    A feature, an array (of results of nested calls), [undefined], or,
    through the inherited [constructor] property of the [parse] table,
    a wrapped string. *)
Inductive Features : Type :=
| Undefined
| OneFeature (f : Feature)
| ArrayOf (l : list Features)
| StringObject (s : string).

(** *** [parse]

    The file imports [SuperMap] and [Format] and declares nothing
    else.  The six parsers that build a geometry name its class through
    another identifier, [Supermap], which is bound nowhere: evaluating
    it throws a reference error.  In [new Supermap.C(args)] the class
    is looked up before the arguments are evaluated, and in
    [new SuperMap.Feature.Vector(new Supermap.C(args))] the argument is
    evaluated before the feature is built. *)
Definition Supermap_not_defined : Error := ReferenceError "Supermap is not defined".

(** [new Supermap.C(args)], for a class name [C] and any arguments. *)
Definition new_Supermap {Args : Type} (C : string) (args : Args) : Completion Geometry :=
  Throw Supermap_not_defined.

(** [f(str).geometry] *)
Definition geometry_of (f : string -> Completion Feature) (str : string) : Completion Geometry :=
  feature <- f str ;; Normal (geometry feature).

Definition parse_point (str : string) : Completion Feature :=
  let coords := split spaces (trim str) in
  point <- new_Supermap "Point" (item coords 0, item coords 1) ;;
  Normal (Vector point).

Definition parse_multipoint (str : string) : Completion Feature :=
  let points := split_char "," (trim str) in
  components <-
    mapM (fun point => geometry_of parse_point (replace trimParens [Ref 1] point)) points ;;
  multipoint <- new_Supermap "MultiPoint" components ;;
  Normal (Vector multipoint).

Definition parse_linestring (str : string) : Completion Feature :=
  let points := split_char "," (trim str) in
  components <- mapM (geometry_of parse_point) points ;;
  linestring <- new_Supermap "LineString" components ;;
  Normal (Vector linestring).

Definition parse_multilinestring (str : string) : Completion Feature :=
  let lines := split parenComma (trim str) in
  components <-
    mapM (fun line => geometry_of parse_linestring (replace trimParens [Ref 1] line)) lines ;;
  multilinestring <- new_Supermap "MultiLineString" components ;;
  Normal (Vector multilinestring).

Definition parse_polygon (str : string) : Completion Feature :=
  let rings := split parenComma (trim str) in
  components <-
    mapM (fun ring =>
            linestring <- geometry_of parse_linestring (replace trimParens [Ref 1] ring) ;;
            new_Supermap "LinearRing" (components_of linestring))
         rings ;;
  polygon <- new_Supermap "Polygon" components ;;
  Normal (Vector polygon).

Definition parse_multipolygon (str : string) : Completion Feature :=
  let polygons := split doubleParenComma (trim str) in
  components <-
    mapM (fun polygon => geometry_of parse_polygon (replace trimParens [Ref 1] polygon))
         polygons ;;
  multipolygon <- new_Supermap "MultiPolygon" components ;;
  Normal (Vector multipolygon).

(** [WKT.read(...)] inside [parse.geometrycollection] names a property
    of the class object itself.  The class declares [read] as a method
    of its instances only, so the property is [undefined] and the call
    throws. *)
Definition WKT_read (wkt : string) : Completion Features :=
  Throw (TypeError "WKT.read is not a function").

(** The array [wktArray] of [parse.geometrycollection]. *)
Definition collection_fragments (str : string) : list string :=
  let str := replace_all commaLetter [Lit "|"; Ref 1] str in
  split_char "|" (trim str).

Definition parse_geometrycollection (str : string) : Completion Features :=
  let wktArray := collection_fragments str in
  components <- mapM WKT_read wktArray ;;
  Normal (ArrayOf components).

(** [this.parse[type]]: the own properties of the table, and the two
    properties with a lower-case name that every object inherits. *)
Inductive Slot : Type :=
| Parser (f : string -> Completion Features)
| ObjectConstructor
| ObjectPrototype
| NoProperty.

(** A parser of the table that returns one feature. *)
Definition feature_parser (f : string -> Completion Feature) : Slot :=
  Parser (fun str => feature <- f str ;; Normal (OneFeature feature)).

Definition parse (type : string) : Slot :=
  if String.eqb type "point" then feature_parser parse_point
  else if String.eqb type "multipoint" then feature_parser parse_multipoint
  else if String.eqb type "linestring" then feature_parser parse_linestring
  else if String.eqb type "multilinestring" then feature_parser parse_multilinestring
  else if String.eqb type "polygon" then feature_parser parse_polygon
  else if String.eqb type "multipolygon" then feature_parser parse_multipolygon
  else if String.eqb type "geometrycollection" then Parser parse_geometrycollection
  else if String.eqb type "constructor" then ObjectConstructor
  else if String.eqb type "__proto__" then ObjectPrototype
  else NoProperty.

Definition capture (n : nat) (matches : captures) : string :=
  match get_capture n matches with
  | Some s => s
  | None => ""
  end.

(** The seven kinds with a parser of their own. *)
Definition supported (type : string) : bool :=
  String.eqb type "point" || String.eqb type "multipoint" || String.eqb type "linestring"
  || String.eqb type "multilinestring" || String.eqb type "polygon"
  || String.eqb type "multipolygon" || String.eqb type "geometrycollection".

(** The type keyword that [read] takes from a text, if the text has the
    outer form. *)
Definition keyword (wkt : string) : option string :=
  match exec typeStr (replace_all lineBreak [Lit " "] wkt) with
  | Some matches => Some (toLowerCase (capture 1 matches))
  | None => None
  end.

(** *** [read]

    The codec is taken without projections configured, so the
    reprojection block after the dispatch does nothing. *)
Definition read (wkt : string) : Completion Features :=
  let wkt := replace_all lineBreak [Lit " "] wkt in
  match exec typeStr wkt with
  | Some matches =>
      let type := toLowerCase (capture 1 matches) in
      let str := capture 2 matches in
      match parse type with
      | Parser f => f str
      | ObjectConstructor => Normal (StringObject str)
      | ObjectPrototype => Throw (TypeError "this.parse[type].apply is not a function")
      | NoProperty => Normal Undefined
      end
  | None => Normal Undefined
  end.

(** *** [extract] *)

Definition no_components : Error :=
  TypeError "Cannot read property 'length' of undefined".

Definition components (g : Geometry) : Completion (list Geometry) :=
  match components_of g with
  | Some cs => Normal cs
  | None => Throw no_components
  end.

Definition wrap (s : string) : string := "(" ++ s ++ ")".

Definition extract_point (point : Geometry) : string :=
  ToString (x_of point) ++ " " ++ ToString (y_of point).

Definition extract_multipoint (multipoint : Geometry) : Completion string :=
  cs <- components multipoint ;;
  Normal (join "," (map (fun c => wrap (extract_point c)) cs)).

Definition extract_linestring (linestring : Geometry) : Completion string :=
  cs <- components linestring ;;
  Normal (join "," (map extract_point cs)).

Definition wrapped (f : Geometry -> Completion string) (g : Geometry) : Completion string :=
  s <- f g ;; Normal (wrap s).

Definition extract_multilinestring (multilinestring : Geometry) : Completion string :=
  cs <- components multilinestring ;;
  array <- mapM (wrapped extract_linestring) cs ;;
  Normal (join "," array).

Definition extract_polygon (polygon : Geometry) : Completion string :=
  cs <- components polygon ;;
  array <- mapM (wrapped extract_linestring) cs ;;
  Normal (join "," array).

Definition extract_multipolygon (multipolygon : Geometry) : Completion string :=
  cs <- components multipolygon ;;
  array <- mapM (wrapped extract_polygon) cs ;;
  Normal (join "," array).

(** The keys of the [extract] table. *)
Inductive Extractor : Type :=
| ExPoint
| ExMultiPoint
| ExLineString
| ExMultiLineString
| ExPolygon
| ExMultiPolygon
| ExCollection.

Definition extract (type : string) : option Extractor :=
  if String.eqb type "point" then Some ExPoint
  else if String.eqb type "multipoint" then Some ExMultiPoint
  else if String.eqb type "linestring" then Some ExLineString
  else if String.eqb type "multilinestring" then Some ExMultiLineString
  else if String.eqb type "polygon" then Some ExPolygon
  else if String.eqb type "multipolygon" then Some ExMultiPolygon
  else if String.eqb type "collection" then Some ExCollection
  else None.

(** [geometry.CLASS_NAME.split('.')[2].toLowerCase()]; every class name
    of the model has three parts. *)
Definition type_of (g : Geometry) : string :=
  toLowerCase (nth 2 (split_char "." (CLASS_NAME g)) "").

(** An element of an array handed to [join]: [null] is written as the
    empty string. *)
Definition piece (p : option string) : string :=
  match p with
  | Some s => s
  | None => ""
  end.

(** [extractGeometry], with the [collection] extractor, which calls it
    back on every component, written in place.  The result is [null]
    ([None]) for a kind without extractor. *)
Fixpoint extractGeometry (g : Geometry) : Completion (option string) :=
  let type := type_of g in
  match extract type with
  | None => Normal None
  | Some ex =>
      let wktType :=
        if String.eqb type "collection" then "GEOMETRYCOLLECTION" else toUpperCase type in
      body <-
        match ex with
        | ExPoint => Normal (extract_point g)
        | ExMultiPoint => extract_multipoint g
        | ExLineString => extract_linestring g
        | ExMultiLineString => extract_multilinestring g
        | ExPolygon => extract_polygon g
        | ExMultiPolygon => extract_multipolygon g
        | ExCollection =>
            match g with
            | Point _ _ => Throw no_components
            | Compound _ cs =>
                array <-
                  (fix each (l : list Geometry) : Completion (list string) :=
                     match l with
                     | [] => Normal []
                     | c :: l' =>
                         s <- extractGeometry c ;;
                         ss <- each l' ;;
                         Normal (piece s :: ss)
                     end) cs ;;
                Normal (join "," array)
            end
        end ;;
      Normal (Some (wktType ++ "(" ++ body ++ ")"))
  end.

(** *** [write]

    The argument is one feature or an array of features. *)
Inductive WriteArg : Type :=
| Single (feature : Feature)
| Several (features : list Feature).

Fixpoint write_pieces (isCollection : bool) (i : nat) (collection : list Feature)
  : Completion (list string) :=
  match collection with
  | [] => Normal []
  | f :: rest =>
      data <- extractGeometry (geometry f) ;;
      more <- write_pieces isCollection (S i) rest ;;
      Normal ((if isCollection && Nat.ltb 0 i then [","] else []) ++ [piece data] ++ more)%list
  end.

Definition write (features : WriteArg) : Completion string :=
  let (collection, isCollection) :=
    match features with
    | Several l => (l, true)
    | Single f => ([f], false)
    end in
  pieces <- write_pieces isCollection 0 collection ;;
  Normal (join ""
            ((if isCollection then ["GEOMETRYCOLLECTION("] else []) ++ pieces
             ++ (if isCollection then [")"] else []))%list).

End WKT.

(** ** The Route class *)

Module Route.

Local Open Scope Z_scope.

(** An entry of the [points] array of the wire form. *)
Record PointJson : Type := mkPointJson {
  json_x : Value;
  json_y : Value;
  json_measure : Value
}.

(** The wire form handed to [fromJson].  [None] stands for a property
    that is missing (or [null]). *)
Record Json : Type := mkJson {
  json_id : option Z;
  json_center : option Z;
  json_style : option string;
  json_length : option Z;
  json_maxM : option Z;
  json_minM : option Z;
  json_type : option string;
  json_parts : option (list Z);
  json_points : option (list PointJson)
}.

(** A [PointWithMeasure] instance. *)
Record MeasuredPoint : Type := mkPoint {
  x : Value;
  y : Value;
  measure : Value
}.

(** The two kinds of component; an element of the point list may be
    [undefined]. *)
Inductive Line : Type :=
| LinearRing (pointList : list (option MeasuredPoint))
| LineString (pointList : list (option MeasuredPoint)).

Definition line_points (l : Line) : list (option MeasuredPoint) :=
  match l with
  | LinearRing ps => ps
  | LineString ps => ps
  end.

(** A [Route] instance: the fields declared in the class body. *)
Record Route : Type := mkRoute {
  id : option Z;
  center : option Z;
  style : option string;
  length : option Z;
  maxM : option Z;
  minM : option Z;
  type : option string;
  parts : option (list Z);
  components : option (list Line)
}.

(** The options object built by [fromJson]. *)
Record Options : Type := mkOptions {
  opt_id : option Z;
  opt_center : option Z;
  opt_style : option string;
  opt_length : option Z;
  opt_maxM : option Z;
  opt_minM : option Z;
  opt_type : option string;
  opt_parts : option (list Z)
}.

(** *** The constructor

    [super(points, options)] lets the collection take the lines as its
    components.  The field initialisers of the class body run when
    [super] returns, and [components = null] is one of them.  Then
    [SuperMap.Util.extend] copies the options onto the instance; the
    options carry no [components]. *)

(** Modelled from the spec: the [Collection] class that [Route] extends
    is missing from the sources.  Its constructor takes the geometries
    handed to it as the components of the instance. *)
Definition Collection_constructor (points : list Line) : Route :=
  {| id := None; center := None; style := None; length := None; maxM := None;
     minM := None; type := None; parts := None; components := Some points |}.

(** The fields declared in the class body, each with its initial value
    [null]. *)
Definition initialise_fields (this : Route) : Route :=
  {| id := None; center := None; style := None; length := None; maxM := None;
     minM := None; type := None; parts := None; components := None |}.

(** Modelled from the spec: [SuperMap.Util.extend] is missing from the
    sources.  It copies the properties of [options] onto the instance
    and leaves the others as they are. *)
Definition extend (this : Route) (options : Options) : Route :=
  {| id := opt_id options; center := opt_center options; style := opt_style options;
     length := opt_length options; maxM := opt_maxM options; minM := opt_minM options;
     type := opt_type options; parts := opt_parts options;
     components := components this |}.

Definition constructor (points : list Line) (options : Options) : Route :=
  let this := Collection_constructor points in
  let this := initialise_fields this in
  extend this options.

(** [a[i]] for an integer index: [undefined] outside the array. *)
Definition at_index {A : Type} (a : list A) (i : Z) : option A :=
  if i <? 0 then None else nth_error a (Z.to_nat i).

(** The values of a counter that runs from [0] while it is below [n]. *)
Definition below (n : Z) : list Z := map Z.of_nat (seq 0 (Z.to_nat n)).

Definition no_equals : Error :=
  TypeError "Cannot read property 'equals' of undefined".

(** What [fromJson] returns. *)
Inductive Result : Type :=
| Undefined
| Null
| Instance (route : Route).

Section Decode.

(** [PointWithMeasure] is not among the sources: its [fromJson] and
    the [equals] method of its instances are taken as given. *)
Variable PointWithMeasure_fromJson : option PointJson -> Completion (option MeasuredPoint).
Variable equals : MeasuredPoint -> option MeasuredPoint -> bool.

(** The inner loop: one call per [j] below [geoParts[i]]. *)
Definition part_points (geoPoints : list PointJson) (pointIndex n : Z)
  : Completion (list (option MeasuredPoint)) :=
  mapM (fun j => PointWithMeasure_fromJson (at_index geoPoints (pointIndex + j))) (below n).

(** The test on the two ends of the list and the push onto [lineList]. *)
Definition classify (pointList : list (option MeasuredPoint)) (n : Z) : Completion Line :=
  match at_index pointList 0 with
  | Some (Some first) =>
      let last :=
        match at_index pointList (n - 1) with
        | Some p => p
        | None => None
        end in
      if equals first last then Normal (LinearRing pointList)
      else Normal (LineString pointList)
  | _ => Throw no_equals
  end.

(** The outer loop over [geoParts]. *)
Fixpoint lines (geoPoints : list PointJson) (geoParts : list Z) (pointIndex : Z)
  : Completion (list Line) :=
  match geoParts with
  | [] => Normal []
  | n :: rest =>
      pointList <- part_points geoPoints pointIndex n ;;
      line <- classify pointList n ;;
      lineList <- lines geoPoints rest (pointIndex + n) ;;
      Normal (line :: lineList)
  end.

Definition options_of (jsonObject : Json) : Options :=
  {| opt_id := json_id jsonObject; opt_center := json_center jsonObject;
     opt_style := json_style jsonObject; opt_length := json_length jsonObject;
     opt_maxM := json_maxM jsonObject; opt_minM := json_minM jsonObject;
     opt_type := json_type jsonObject; opt_parts := json_parts jsonObject |}.

Definition or_empty {A : Type} (a : option (list A)) : list A :=
  match a with
  | Some l => l
  | None => []
  end.

Definition fromJson (jsonObject : option Json) : Completion Result :=
  match jsonObject with
  | None => Normal Undefined
  | Some jsonObject =>
      let geoParts := or_empty (json_parts jsonObject) in
      let geoPoints := or_empty (json_points jsonObject) in
      let len := List.length geoParts in
      if Nat.ltb 0 len then
        lineList <- lines geoPoints geoParts 0 ;;
        Normal (Instance (constructor lineList (options_of jsonObject)))
      else Normal Null
  end.

End Decode.

(** *** [toJson] *)

Definition dq : string := String (ascii_of_nat 34) EmptyString.

(** The text of a key with its colon, as the source spells it out. *)
Definition key (name : string) : string := (dq ++ name ++ dq ++ ":")%string.

(** A comma at the very end of the text (the pattern has the [g] flag). *)
Definition trailingComma : Js.regex := Js.Seq (Js.lit ",") Js.Eol.

Definition no_toJson : Error :=
  TypeError "Cannot read property 'toJson' of undefined".


Section Encode.

(** The [toJson] method of a [PointWithMeasure], taken as given. *)
Variable point_toJson : MeasuredPoint -> string.

Local Open Scope string_scope.

(** The two nested loops over the points of every component. *)
Fixpoint append_points (result : string) (pointList : list (option MeasuredPoint))
  : Completion string :=
  match pointList with
  | [] => Normal result
  | Some p :: rest => append_points (result ++ point_toJson p ++ ",") rest
  | None :: rest => Throw no_toJson
  end.

Fixpoint append_components (result : string) (cs : list Line) : Completion string :=
  match cs with
  | [] => Normal result
  | c :: rest =>
      result <- append_points result (line_points c) ;;
      append_components result rest
  end.

(** The loop over [parts] from index 1 on. *)
Fixpoint append_parts (result : string) (rest : list Z) : string :=
  match rest with
  | [] => result
  | n :: rest' => append_parts (result ++ "," ++ Number_toString n) rest'
  end.

Definition toJson (this : Route) : Completion string :=
  let result := "{" in
  let result :=
    match id this with
    | Some v => result ++ key "id" ++ Number_toString v ++ ","
    | None => result
    end in
  let result :=
    match center this with
    | Some v => result ++ key "center" ++ Number_toString v ++ ","
    | None => result
    end in
  let result :=
    match style this with
    | Some v => result ++ key "style" ++ v ++ ","
    | None => result
    end in
  let result :=
    match length this with
    | Some v => result ++ key "length" ++ Number_toString v ++ ","
    | None => result
    end in
  let result :=
    match maxM this with
    | Some v => result ++ key "maxM" ++ Number_toString v ++ ","
    | None => result
    end in
  let result :=
    match minM this with
    | Some v => result ++ key "minM" ++ Number_toString v ++ ","
    | None => result
    end in
  let result :=
    match type this with
    | Some v => result ++ key "type" ++ dq ++ v ++ dq ++ ","
    | None => result
    end in
  let result :=
    match parts this with
    | Some ps =>
        let first :=
          match ps with
          | [] => VUndefined
          | n :: _ => VNumber n
          end in
        append_parts (result ++ key "parts" ++ "[" ++ ToString first) (tl ps) ++ "],"
    | None => result
    end in
  result <-
    match components this with
    | Some (c :: cs) =>
        result <- append_components (result ++ key "points" ++ "[") (c :: cs) ;;
        Normal (Js.replace_all trailingComma [] result ++ "]")
    | _ => Normal result
    end ;;
  Normal (Js.replace_all trailingComma [] result ++ "}").

End Encode.

End Route.

(** ** [Route.destroy]

    [destroy] also writes [componentTypes], a field that decoding and
    encoding do not look at: an instance is taken here with that field
    beside the others. *)

Module Disposal.

Record Instance : Type := mkInstance {
  fields : Route.Route;
  componentTypes : option (list string)
}.

(** The value that the class body gives to [componentTypes]. *)
Definition declared_componentTypes : option (list string) :=
  Some ["SuperMap.Geometry.LinearRing"; "SuperMap.Geometry.LineString"].

(** [new Route(points, options)] *)
Definition created (points : list Route.Line) (options : Route.Options) : Instance :=
  {| fields := Route.constructor points options;
     componentTypes := declared_componentTypes |}.

Definition no_length : Error := TypeError "Cannot set property 'length' of null".

Definition cleared : Route.Route :=
  {| Route.id := None; Route.center := None; Route.style := None; Route.length := None;
     Route.maxM := None; Route.minM := None; Route.type := None; Route.parts := None;
     Route.components := None |}.

(** [destroy]: the seven metadata and [parts] are set to [null]; then
    [this.components.length = 0] throws when [components] is [null];
    otherwise [components] and [componentTypes] are set to [null] too.
    The result is the instance as the call leaves it, and the
    completion of the call. *)
Definition destroy (this : Instance) : Instance * Completion unit :=
  match Route.components (fields this) with
  | None => ({| fields := cleared; componentTypes := componentTypes this |}, Throw no_length)
  | Some _ => ({| fields := cleared; componentTypes := None |}, Normal tt)
  end.

End Disposal.

(** ** The documented wire schema

    Written from the description of the interface, not from the code: a
    reader of JSON text and the test that a value is an instance of
    [{ id?: number, center?: number, style?: string, length?: number,
       maxM?: number, minM?: number, type?: string, parts: number[],
       points: [{x, y, measure : number}, ...] }].
    Numbers are read as runs of number characters and not looked at more
    closely, which can only let more texts pass. *)

Module Schema.

Import Js.

Inductive json : Type :=
| JNull
| JBool (b : bool)
| JNumber (text : string)
| JString (s : string)
| JArray (items : list json)
| JObject (members : list (string * json)).

Definition quote : ascii := ascii_of_nat 34.
Definition backslash : ascii := ascii_of_nat 92.

Definition is_json_space (c : ascii) : bool :=
  Nat.eqb (code c) 32 || Nat.eqb (code c) 9 || Nat.eqb (code c) 10 || Nat.eqb (code c) 13.

Fixpoint skip_ws (s : string) : string :=
  match s with
  | String c s' => if is_json_space c then skip_ws s' else s
  | EmptyString => EmptyString
  end.

(** The characters of a string literal after its opening quote, up to
    the closing one; a backslash takes the next character with it. *)
Fixpoint scan_string (s : string) : option (string * string) :=
  match s with
  | EmptyString => None
  | String c s' =>
      if Ascii.eqb c quote then Some (EmptyString, s')
      else if Ascii.eqb c backslash then
        match s' with
        | EmptyString => None
        | String e s'' =>
            match scan_string s'' with
            | Some (t, r) => Some (String c (String e t), r)
            | None => None
            end
        end
      else
        match scan_string s' with
        | Some (t, r) => Some (String c t, r)
        | None => None
        end
  end.

Definition starts_number (c : ascii) : bool := is_digit c || is_char "-" c.

Definition is_number_char (c : ascii) : bool :=
  is_digit c || is_char "-" c || is_char "+" c || is_char "." c
  || is_char "e" c || is_char "E" c.

Fixpoint span (p : ascii -> bool) (s : string) : string * string :=
  match s with
  | String c s' =>
      if p c then let (a, b) := span p s' in (String c a, b) else (EmptyString, s)
  | EmptyString => (EmptyString, EmptyString)
  end.

Fixpoint strip_prefix (p s : string) : option string :=
  match p, s with
  | EmptyString, _ => Some s
  | String a p', String b s' => if Ascii.eqb a b then strip_prefix p' s' else None
  | String _ _, EmptyString => None
  end.

Definition literal (s : string) : option (json * string) :=
  match strip_prefix "true" s with
  | Some r => Some (JBool true, r)
  | None =>
      match strip_prefix "false" s with
      | Some r => Some (JBool false, r)
      | None =>
          match strip_prefix "null" s with
          | Some r => Some (JNull, r)
          | None => None
          end
      end
  end.

Fixpoint value (fuel : nat) (s : string) : option (json * string) :=
  match fuel with
  | O => None
  | S fuel' =>
      match skip_ws s with
      | EmptyString => None
      | String c r =>
          if Ascii.eqb c quote then
            match scan_string r with
            | Some (t, r') => Some (JString t, r')
            | None => None
            end
          else if is_char "{" c then
            match skip_ws r with
            | String "}" r' => Some (JObject [], r')
            | _ =>
                match members fuel' r with
                | Some (m, r') => Some (JObject m, r')
                | None => None
                end
            end
          else if is_char "[" c then
            match skip_ws r with
            | String "]" r' => Some (JArray [], r')
            | _ =>
                match elements fuel' r with
                | Some (l, r') => Some (JArray l, r')
                | None => None
                end
            end
          else if starts_number c then
            let (t, r') := span is_number_char (String c r) in Some (JNumber t, r')
          else literal (String c r)
      end
  end

with members (fuel : nat) (s : string) : option (list (string * json) * string) :=
  match fuel with
  | O => None
  | S fuel' =>
      match skip_ws s with
      | EmptyString => None
      | String c r =>
          if Ascii.eqb c quote then
            match scan_string r with
            | Some (k, r1) =>
                match skip_ws r1 with
                | String ":" r2 =>
                    match value fuel' r2 with
                    | Some (v, r3) =>
                        match skip_ws r3 with
                        | String "," r4 =>
                            match members fuel' r4 with
                            | Some (m, r5) => Some ((k, v) :: m, r5)
                            | None => None
                            end
                        | String "}" r4 => Some ([(k, v)], r4)
                        | _ => None
                        end
                    | None => None
                    end
                | _ => None
                end
            | None => None
            end
          else None
      end
  end

with elements (fuel : nat) (s : string) : option (list json * string) :=
  match fuel with
  | O => None
  | S fuel' =>
      match value fuel' s with
      | Some (v, r) =>
          match skip_ws r with
          | String "," r' =>
              match elements fuel' r' with
              | Some (l, r'') => Some (v :: l, r'')
              | None => None
              end
          | String "]" r' => Some ([v], r')
          | _ => None
          end
      | None => None
      end
  end.

(** A whole text with [fuel] to spend: one value and nothing after it. *)
Definition read_with (fuel : nat) (s : string) : option json :=
  match value fuel s with
  | Some (v, r) =>
      match skip_ws r with
      | EmptyString => Some v
      | String _ _ => None
      end
  | None => None
  end.

(** Every step of the reader takes a character, so twice the length of
    the text plus one is fuel enough. *)
Definition read (s : string) : option json := read_with (2 * String.length s + 1) s.









Definition is_quote (c : ascii) : bool := Ascii.eqb c quote.





End Schema.

(** ** [PointWithMeasure], from the data model *)

Module PointWithMeasure.

Import Route.

(** Strict equality of two primitive values. *)
Definition strict_equal (a b : Value) : bool :=
  match a, b with
  | VUndefined, VUndefined => true
  | VNull, VNull => true
  | VNumber m, VNumber n => Z.eqb m n
  | VString s, VString t => String.eqb s t
  | _, _ => false
  end.

Definition no_entry : Error := TypeError "Cannot read property 'x' of undefined".

(** Modelled from the spec: [PointWithMeasure.fromJson] is missing from
    the sources.  A measured point is a point plus a measure, built from
    an entry [{x, y, measure}] of the points array.  An entry that is
    not there is an error: the description of the wire form calls a
    points array that is too short a fatal error, to be reported. *)
Definition fromJson (jsonObject : option PointJson) : Completion (option MeasuredPoint) :=
  match jsonObject with
  | None => Throw no_entry
  | Some p => Normal (Some {| x := json_x p; y := json_y p; measure := json_measure p |})
  end.

(** Modelled from the spec: the [equals] method of a measured point is
    missing from the sources.  Two points are equal when their
    coordinates are exactly equal; nothing equals a point that is not
    there. *)
Definition equals (this : MeasuredPoint) (geom : option MeasuredPoint) : bool :=
  match geom with
  | Some q => strict_equal (x this) (x q) && strict_equal (y this) (y q)
  | None => false
  end.

(** Modelled from the spec: the [toJson] method of a measured point is
    missing from the sources.  It writes the entry [{x, y, measure}] of
    the points array. *)
Definition toJson (this : MeasuredPoint) : string :=
  "{" ++ key "x" ++ ToString (x this) ++ "," ++ key "y" ++ ToString (y this) ++ ","
      ++ key "measure" ++ ToString (measure this) ++ "}".

End PointWithMeasure.

(** ** Instances of every kind *)

Module Fixtures.

Local Open Scope Z_scope.

Definition pt (a b : Z) : Geometry := Point (VNumber a) (VNumber b).

Definition point : Geometry := pt 30 (-10).
Definition multipoint : Geometry := Compound MultiPoint [pt 10 40; pt 40 30; pt (-20) 20].
Definition linestring : Geometry := Compound LineString [pt 30 10; pt 10 30; pt 40 40].
Definition multilinestring : Geometry :=
  Compound MultiLineString
    [Compound LineString [pt 10 10; pt 20 20; pt 10 40];
     Compound LineString [pt 40 40; pt 30 30; pt 40 20; pt 30 10]].
Definition outer : Geometry :=
  Compound LinearRing [pt 35 10; pt 45 45; pt 15 40; pt 10 20; pt 35 10].
Definition hole : Geometry :=
  Compound LinearRing [pt 20 30; pt 35 35; pt 30 20; pt 20 30].
Definition polygon : Geometry := Compound Polygon [outer; hole].
Definition multipolygon : Geometry :=
  Compound MultiPolygon
    [Compound Polygon [Compound LinearRing [pt 40 40; pt 20 45; pt 45 30; pt 40 40]];
     polygon].

(** An array of two features, and an array whose first feature holds a
    collection: a collection at two levels. *)
Definition collection : WKT.WriteArg :=
  WKT.Several [Vector point; Vector linestring].
Definition collection2 : WKT.WriteArg :=
  WKT.Several [Vector (Compound Collection [point; linestring]); Vector polygon].

Definition single_kinds : list Geometry :=
  [point; multipoint; linestring; multilinestring; polygon; multipolygon].

(** A route on the wire: a closed part of four points, then an open part
    of three. *)
Definition entry (a b m : Z) : Route.PointJson :=
  Route.mkPointJson (VNumber a) (VNumber b) (VNumber m).

Definition closed_part : list Route.PointJson :=
  [entry 0 0 0; entry 1 0 1; entry 1 1 2; entry 0 0 3].

Definition open_part : list Route.PointJson :=
  [entry 0 0 0; entry 1 0 1; entry 1 1 2].

(** Four points of which the last is not the first. *)
Definition open_four : list Route.PointJson :=
  [entry 0 0 0; entry 1 0 1; entry 1 1 2; entry 0 1 3].

Definition wire (parts : option (list Z)) (points : option (list Route.PointJson)) : Route.Json :=
  {| Route.json_id := Some 7; Route.json_center := None; Route.json_style := None;
     Route.json_length := Some 5; Route.json_maxM := Some 3; Route.json_minM := Some 0;
     Route.json_type := Some "LINEM"%string;
     Route.json_parts := parts; Route.json_points := points |}.

Definition route_json : Route.Json :=
  wire (Some [4; 3]) (Some (closed_part ++ open_part)%list).


(** A route whose style is a text within double quotes of its own, and
    one whose style is a bare word. *)
Definition measured (a b m : Z) : option Route.MeasuredPoint :=
  Some (Route.mkPoint (VNumber a) (VNumber b) (VNumber m)).

Definition styled (style : string) : Route.Route :=
  {| Route.id := Some 7; Route.center := None; Route.style := Some style;
     Route.length := Some 5; Route.maxM := None; Route.minM := None;
     Route.type := Some "LINEM"%string; Route.parts := Some [2; 1];
     Route.components :=
       Some [Route.LineString [measured 0 0 0; measured 1 1 1];
             Route.LineString [measured 2 2 2]] |}.


End Fixtures.

(** ** The partition of the points that the parts describe *)

Module Partition.

Import Route.

Definition decode_point (p : PointJson) : MeasuredPoint :=
  {| x := json_x p; y := json_y p; measure := json_measure p |}.

Fixpoint chunks {A : Type} (l : list A) (parts : list Z) : list (list A) :=
  match parts with
  | [] => []
  | n :: rest => firstn (Z.to_nat n) l :: chunks (skipn (Z.to_nat n) l) rest
  end.

Definition sum (parts : list Z) : Z := fold_right Z.add 0%Z parts.

Definition coordinate_equal (p q : MeasuredPoint) : bool :=
  PointWithMeasure.strict_equal (x p) (x q) && PointWithMeasure.strict_equal (y p) (y q).

(** A part as the description classifies it: a ring when its first and
    its last point are coordinate-equal, a line otherwise. *)
Definition ring_or_line (ps : list MeasuredPoint) : Line :=
  match ps with
  | [] => LineString []
  | first :: _ =>
      if coordinate_equal first (last ps first) then LinearRing (map Some ps)
      else LineString (map Some ps)
  end.

Definition count_points (ls : list Line) : nat :=
  fold_right (fun l n => (List.length (line_points l) + n)%nat) 0%nat ls.

(** The entry of the points array at an index, decoded; nothing outside
    the array. *)
Definition read_entry (geoPoints : list PointJson) (i : Z) : option MeasuredPoint :=
  option_map decode_point (at_index geoPoints i).

End Partition.

(** ** Vocabulary of the proofs

    The notions below describe texts and geometries; the properties are
    stated with them.  None of them is part of the codecs. *)

(** *** Texts and patterns *)

(** The pattern [r] matches at no position of the stretch [a] of the
    text [a ++ s]. *)
Definition quiet (r : Js.regex) (a s : string) : Prop :=
  forall total a1 a2, a = a1 ++ a2 -> a2 <> "" -> Js.match_here total r (a2 ++ s) = None.

(** The pieces of a text built from [ts]: what stood in front goes to
    the first, what stands behind to the last. *)
Fixpoint frame (pre post : string) (ts : list string) : list string :=
  match ts with
  | [] => []
  | [t] => [pre ++ t ++ post]
  | t :: ts' => (pre ++ t) :: frame "" post ts'
  end.

(** *** Texts that are written *)

(** The text written for the points of a line. *)
Definition line_text (cs : list Geometry) : string :=
  Js.join "," (map WKT.extract_point cs).

(** *** Texts that are read and written *)

(** A text with a space for each of its line breaks. *)
Definition unbroken : string -> string :=
  Js.map_string (fun c => if Js.is_newline c then " "%char else c).

(** The text written for one member of an array or of a collection:
    [null] counts as the empty text. *)
Definition member_text (g : Geometry) : Completion string :=
  data <- WKT.extractGeometry g ;; Normal (WKT.piece data).

(** The six kinds whose parser builds a geometry. *)
Definition builds_geometry (type : string) : bool :=
  String.eqb type "point" || String.eqb type "multipoint" || String.eqb type "linestring"
  || String.eqb type "multilinestring" || String.eqb type "polygon"
  || String.eqb type "multipolygon".

(** *** The fields of a route in its text *)

(** The text of an optional field of a route, if it is there. *)
Definition field {A : Type} (text : A -> string) (v : option A) : list string :=
  match v with
  | Some a => [text a]
  | None => []
  end.

(** The numbers of [parts] between their brackets; an empty array has
    no first element, and [undefined] is written for it. *)
Definition parts_text (ps : list Z) : string :=
  match ps with
  | [] => "[undefined]"
  | _ => "[" ++ Js.join "," (map Number_toString ps) ++ "]"
  end.

(** The metadata fields of a route that are there, each with its key,
    in the order in which [toJson] looks at them. *)
Definition metadata_texts (this : Route.Route) : list string :=
  field (fun v => Route.key "id" ++ Number_toString v) (Route.id this)
  ++ field (fun v => Route.key "center" ++ Number_toString v) (Route.center this)
  ++ field (fun v => Route.key "style" ++ v) (Route.style this)
  ++ field (fun v => Route.key "length" ++ Number_toString v) (Route.length this)
  ++ field (fun v => Route.key "maxM" ++ Number_toString v) (Route.maxM this)
  ++ field (fun v => Route.key "minM" ++ Number_toString v) (Route.minM this)
  ++ field (fun v => Route.key "type" ++ Route.dq ++ v ++ Route.dq) (Route.type this)
  ++ field (fun ps => Route.key "parts" ++ parts_text ps) (Route.parts this).

(** The points of all the components, in order. *)
Definition all_points (cs : list Route.Line) : list (option Route.MeasuredPoint) :=
  concat (map Route.line_points cs).

(** The points that are there. *)
Fixpoint present_points (l : list (option Route.MeasuredPoint)) : list Route.MeasuredPoint :=
  match l with
  | [] => []
  | Some p :: l' => p :: present_points l'
  | None :: l' => present_points l'
  end.

(** The [points] field: there when the route has a component. *)
Definition points_texts (point_toJson : Route.MeasuredPoint -> string) (this : Route.Route)
  : list string :=
  match Route.components this with
  | Some (c :: cs) =>
      [Route.key "points" ++ "["
       ++ Js.join "," (map point_toJson (present_points (all_points (c :: cs)))) ++ "]"]
  | _ => []
  end.

(** Texts with a comma after each. *)
Definition with_commas (l : list string) : string :=
  fold_right (fun t acc => t ++ "," ++ acc) "" l.

(** * Properties *)

(** ** Texts *)

Lemma append_empty_r (s : string) : s ++ "" = s.
Proof. induction s as [|c s IH]; simpl; [reflexivity | now rewrite IH]. Qed.

Lemma append_assoc (a b c : string) : (a ++ b) ++ c = a ++ (b ++ c).
Proof. induction a as [|x a IH]; simpl; [reflexivity | now rewrite IH]. Qed.

Lemma length_append (a b : string) :
  String.length (a ++ b) = String.length a + String.length b.
Proof. induction a as [|x a IH]; simpl; [reflexivity | now rewrite IH]. Qed.

Lemma all_chars_append (p : ascii -> bool) (a b : string) :
  Js.all_chars p (a ++ b) = Js.all_chars p a && Js.all_chars p b.
Proof.
  induction a as [|x a IH]; simpl; [reflexivity|].
  rewrite IH. apply andb_assoc.
Qed.

(** ** Where a pattern can match *)

Arguments Js.is_char _ _ : simpl never.
Arguments Js.is_space _ : simpl never.
Arguments Js.is_dot _ : simpl never.
Arguments Js.is_word _ : simpl never.
Arguments Js.is_letter _ : simpl never.

(** Tests on characters that are known are decided; the matcher is
    unfolded along the pattern. *)
Ltac char_tests :=
  repeat match goal with
    | |- context [Js.is_char ?a ?b] =>
        let v := eval vm_compute in (Js.is_char a b) in
        lazymatch v with true => idtac | false => idtac end;
        change (Js.is_char a b) with v
    | |- context [Js.is_space ?a] =>
        let v := eval vm_compute in (Js.is_space a) in
        lazymatch v with true => idtac | false => idtac end;
        change (Js.is_space a) with v
    end;
  cbv iota.

Ltac unfold_match :=
  cbn [Js.seq Js.rmatch Js.lit Js.ws Js.Plus append String.length Js.iterate].

Ltac run_match := unfold Js.match_here; repeat (unfold_match; char_tests).

Section Skipping.

Import Js.

Variables (total : nat) (r : regex) (p : ascii -> bool).
Hypothesis only_at : forall s, Js.not_headed p s -> match_here total r s = None.

(** [split] walks over a stretch without any character of [p] and
    adds it to the piece at hand. *)
Lemma split_from_skip (a : string) :
  forall fuel piece s,
    all_chars (fun c => negb (p c)) a = true ->
    String.length a <= fuel ->
    split_from fuel total r piece (a ++ s) =
    split_from (fuel - String.length a) total r (piece ++ a) s.
Proof.
  induction a as [|c a IH]; intros fuel piece s Ha Hf; simpl in *.
  - rewrite Nat.sub_0_r, append_empty_r. reflexivity.
  - apply andb_prop in Ha. destruct Ha as [Hc Ha].
    destruct fuel as [|fuel]; [lia|]. simpl.
    rewrite only_at by (simpl; now destruct (p c)).
    rewrite IH by (auto; lia).
    rewrite append_assoc. reflexivity.
Qed.

Lemma split_from_none (a : string) (fuel : nat) (piece : string) :
  all_chars (fun c => negb (p c)) a = true ->
  String.length a < fuel ->
  split_from fuel total r piece a = [piece ++ a].
Proof.
  intros Ha Hf.
  rewrite <- (append_empty_r a) at 1.
  rewrite split_from_skip by (auto; lia).
  destruct (fuel - String.length a) eqn:E; [lia|]. reflexivity.
Qed.

(** One separator between two stretches: two pieces. *)
Lemma split_from_once (a sep b : string) (fuel : nat) :
  all_chars (fun c => negb (p c)) a = true ->
  all_chars (fun c => negb (p c)) b = true ->
  sep <> "" ->
  match_here total r (sep ++ b) = Some (b, []) ->
  String.length (a ++ sep ++ b) < fuel ->
  split_from fuel total r "" (a ++ sep ++ b) = [a; b].
Proof.
  intros Ha Hb Hsep Hm Hf.
  rewrite !length_append in Hf.
  rewrite split_from_skip by (auto; lia). simpl.
  destruct (fuel - String.length a) as [|fuel'] eqn:E; [lia|].
  destruct sep as [|c sep]; [congruence|]. simpl in *.
  rewrite Hm.
  replace (Nat.eqb (String.length b) (S (String.length (sep ++ b)))) with false
    by (symmetry; apply Nat.eqb_neq; rewrite length_append; lia).
  simpl. rewrite split_from_none by (auto; lia). reflexivity.
Qed.

End Skipping.

Lemma split_once (r : Js.regex) (p : ascii -> bool) (a sep b : string) :
  (forall total t, Js.not_headed p t -> Js.match_here total r t = None) ->
  Js.all_chars (fun c => negb (p c)) a = true ->
  Js.all_chars (fun c => negb (p c)) b = true ->
  sep <> "" ->
  (forall total, Js.match_here total r (sep ++ b) = Some (b, [])) ->
  Js.split r (a ++ sep ++ b) = [a; b].
Proof.
  intros Hr Ha Hb Hsep Hm. unfold Js.split.
  destruct (a ++ sep ++ b) as [|c s] eqn:E.
  - destruct a; [destruct sep; [congruence | discriminate] | discriminate].
  - rewrite <- E. apply (split_from_once _ _ p); auto.
    rewrite E. simpl. lia.
Qed.

Lemma parenComma_only_at total s :
  Js.not_headed (Js.is_char ")") s -> Js.match_here total WKT.parenComma s = None.
Proof.
  destruct s as [|c s]; cbn [Js.not_headed]; intros H; [reflexivity|].
  unfold WKT.parenComma. run_match. rewrite H. reflexivity.
Qed.

Lemma doubleParenComma_only_at total s :
  Js.not_headed (Js.is_char ")") s -> Js.match_here total WKT.doubleParenComma s = None.
Proof.
  destruct s as [|c s]; cbn [Js.not_headed]; intros H; [reflexivity|].
  unfold WKT.doubleParenComma. run_match. rewrite H. reflexivity.
Qed.

Lemma parenComma_at_boundary total b :
  Js.match_here total WKT.parenComma ("),(" ++ b) = Some (b, []).
Proof. unfold WKT.parenComma. run_match. reflexivity. Qed.

Lemma doubleParenComma_at_boundary total b :
  Js.match_here total WKT.doubleParenComma (")),((" ++ b) = Some (b, []).
Proof. unfold WKT.doubleParenComma. run_match. reflexivity. Qed.

(** ** The text written for a collection *)

Lemma written_collection2 :
  WKT.write Fixtures.collection2 =
  Normal ("GEOMETRYCOLLECTION(GEOMETRYCOLLECTION(POINT(30 -10),LINESTRING(30 10,10 30,40 40)),"
          ++ "POLYGON((35 10,45 45,15 40,10 20,35 10),(20 30,35 35,30 20,20 30)))").
Proof. vm_compute. reflexivity. Qed.

(** ** Members of a collection *)

Lemma split_char_from_cons (sep : ascii) (s piece : string) :
  exists first rest, Js.split_char_from sep piece s = first :: rest.
Proof.
  revert piece. induction s as [|c s IH]; intros piece; simpl.
  - now exists piece, [].
  - destruct (Ascii.eqb c sep); [now eexists; eexists | apply IH].
Qed.

(** C4.  The body of a collection is cut where a comma comes before a
    letter, and the pieces are meant for [read]; but the call names
    [read] on the class object, where there is no such function, so for
    every body the first piece already makes the call throw. *)
Theorem collection_members_never_decoded :
  WKT.collection_fragments "POINT(1 2),LINESTRING(0 0,1 1)" =
    ["POINT(1 2)"; "LINESTRING(0 0,1 1)"]
  /\ (forall str : string,
        WKT.parse_geometrycollection str = Throw (TypeError "WKT.read is not a function"))
  /\ WKT.read "GEOMETRYCOLLECTION(POINT(1 2),LINESTRING(0 0,1 1))" =
       Throw (TypeError "WKT.read is not a function").
Proof.
  split; [vm_compute; reflexivity | split; [| vm_compute; reflexivity]].
  intros str. unfold WKT.parse_geometrycollection, WKT.collection_fragments, Js.split_char.
  destruct (split_char_from_cons "|" (trim (Js.replace_all WKT.commaLetter
              [Js.Lit "|"; Js.Ref 1] str)) "") as (first & rest & E).
  rewrite E. reflexivity.
Qed.

(** ** Type keywords *)

Lemma read_by_keyword (wkt : string) :
  match WKT.keyword wkt with
  | None => WKT.read wkt = Normal WKT.Undefined
  | Some type =>
      match WKT.parse type with
      | WKT.NoProperty => WKT.read wkt = Normal WKT.Undefined
      | WKT.ObjectPrototype => exists e, WKT.read wkt = Throw e
      | WKT.ObjectConstructor => exists s, WKT.read wkt = Normal (WKT.StringObject s)
      | WKT.Parser _ => True
      end
  end.
Proof.
  unfold WKT.keyword, WKT.read.
  destruct (Js.exec WKT.typeStr (Js.replace_all WKT.lineBreak [Js.Lit " "] wkt)) as [m|];
    [|reflexivity].
  destruct (WKT.parse (Js.toLowerCase (WKT.capture 1 m))); eauto.
Qed.

(** A keyword that is neither one of the seven kinds nor the name of an
    inherited property gives no result. *)
Lemma read_unknown_keyword (wkt type : string) :
  WKT.keyword wkt = Some type ->
  WKT.supported type = false ->
  type <> "constructor" -> type <> "__proto__" ->
  WKT.read wkt = Normal WKT.Undefined.
Proof.
  intros Hk Hs Hc Hp.
  pose proof (read_by_keyword wkt) as H. rewrite Hk in H.
  unfold WKT.supported in Hs. unfold WKT.parse, WKT.feature_parser in H.
  repeat (apply orb_false_elim in Hs; destruct Hs as [Hs ?]).
  repeat match goal with E : String.eqb _ _ = false |- _ => rewrite E in H; clear E end.
  apply String.eqb_neq in Hc, Hp. rewrite Hc, Hp in H. exact H.
Qed.

Lemma read_no_outer_form (wkt : string) :
  WKT.keyword wkt = None -> WKT.read wkt = Normal WKT.Undefined.
Proof.
  intros Hk. pose proof (read_by_keyword wkt) as H. now rewrite Hk in H.
Qed.

(** C6.  A keyword outside the seven kinds is looked up in the [parse]
    table like any property name, and two such names are inherited by
    every object: with [__proto__] the call throws, with [constructor]
    the body comes back wrapped; neither is one of the seven kinds.  The
    keyword of the description and a text without the outer form give no
    result. *)
Theorem unknown_keyword_can_throw :
  WKT.keyword "__proto__(1 2)" = Some "__proto__"
  /\ WKT.supported "__proto__" = false
  /\ WKT.read "__proto__(1 2)" =
       Throw (TypeError "this.parse[type].apply is not a function")
  /\ WKT.supported "constructor" = false
  /\ WKT.read "Constructor(1 2)" = Normal (WKT.StringObject "1 2")
  /\ WKT.read "NOTAGEOM(1 2)" = Normal WKT.Undefined
  /\ WKT.read "POINT 1 2" = Normal WKT.Undefined.
Proof. repeat (split; [vm_compute; reflexivity|]). vm_compute. reflexivity. Qed.

(** ** The loop of [Route.fromJson] *)

Lemma skipn_cons_nth {A : Type} (l : list A) :
  forall i x, nth_error l i = Some x -> skipn i l = x :: skipn (S i) l.
Proof.
  induction l as [|a l IH]; intros [|i] x H; simpl in *; try discriminate.
  - now injection H as ->.
  - now apply IH.
Qed.

Lemma slice_by_index {A : Type} (l : list A) (k : nat) :
  forall i, i + k <= List.length l ->
            map (nth_error l) (seq i k) = map Some (firstn k (skipn i l)).
Proof.
  induction k as [|k IH]; intros i H; simpl; [reflexivity|].
  destruct (nth_error l i) as [x|] eqn:E.
  - rewrite (skipn_cons_nth _ _ _ E). simpl. f_equal. apply IH. lia.
  - apply nth_error_None in E. lia.
Qed.

Section Loop.

Import Route Partition.
Local Open Scope Z_scope.
Local Open Scope list_scope.

Lemma mapM_within {A B : Type} (f : A -> Completion B) (g : A -> B) (l : list A) :
  (forall a, In a l -> f a = Normal (g a)) -> mapM f l = Normal (map g l).
Proof.
  induction l as [|a l IH]; intros H; cbn [mapM map]; [reflexivity|].
  rewrite (H a (or_introl eq_refl)). cbn [bind].
  rewrite IH by (intros b Hb; apply H; now right). reflexivity.
Qed.

(** The entries of a part that lies within the array are all there. *)
Lemma part_points_reads (geoPoints : list PointJson) (pointIndex n : Z) :
  0 <= pointIndex -> pointIndex + n <= Z.of_nat (List.length geoPoints) ->
  part_points PointWithMeasure.fromJson geoPoints pointIndex n =
  Normal (map (fun j => read_entry geoPoints (pointIndex + j)) (below n)).
Proof.
  intros Hi Hlen. unfold part_points. apply mapM_within. intros j Hj.
  unfold below in Hj. apply in_map_iff in Hj. destruct Hj as (k & <- & Hk).
  apply in_seq in Hk. unfold read_entry, at_index.
  destruct (pointIndex + Z.of_nat k <? 0) eqn:E; [apply Z.ltb_lt in E; lia|].
  destruct (nth_error geoPoints (Z.to_nat (pointIndex + Z.of_nat k))) as [p|] eqn:Ep;
    [reflexivity|].
  apply nth_error_None in Ep. lia.
Qed.

Lemma read_entry_nth (geoPoints : list PointJson) (i : nat) :
  read_entry geoPoints (Z.of_nat i) = nth_error (map decode_point geoPoints) i.
Proof.
  unfold read_entry, at_index.
  destruct (Z.of_nat i <? 0) eqn:E; [apply Z.ltb_lt in E; lia|].
  rewrite Nat2Z.id, nth_error_map. reflexivity.
Qed.

Lemma reads_from (geoPoints : list PointJson) (i : Z) (k : nat) :
  0 <= i ->
  forall o,
    map (fun j => read_entry geoPoints (i + j)) (map Z.of_nat (seq o k)) =
    map (nth_error (map decode_point geoPoints)) (seq (Z.to_nat i + o) k).
Proof.
  intros Hi. induction k as [|k IH]; intros o; simpl; [reflexivity|].
  replace (i + Z.of_nat o) with (Z.of_nat (Z.to_nat i + o)) by lia.
  rewrite read_entry_nth. f_equal.
  rewrite IH. now rewrite Nat.add_succ_r.
Qed.

(** The points of a part that lies within the array. *)
Lemma part_points_within (geoPoints : list PointJson) (pointIndex n : Z) :
  0 <= pointIndex -> 0 <= n -> pointIndex + n <= Z.of_nat (List.length geoPoints) ->
  part_points PointWithMeasure.fromJson geoPoints pointIndex n =
  Normal (map Some (firstn (Z.to_nat n)
                      (skipn (Z.to_nat pointIndex) (map decode_point geoPoints)))).
Proof.
  intros Hi Hn Hlen. rewrite part_points_reads by assumption. f_equal. unfold below.
  rewrite reads_from, Nat.add_0_r by assumption.
  apply slice_by_index. rewrite length_map. lia.
Qed.

Lemma at_index_first {A : Type} (a : A) (l : list A) : at_index (a :: l) 0 = Some a.
Proof. reflexivity. Qed.

Lemma at_index_nat {A : Type} (l : list A) (i : Z) :
  0 <= i -> at_index l i = nth_error l (Z.to_nat i).
Proof.
  intros H. unfold at_index. destruct (i <? 0) eqn:E; [apply Z.ltb_lt in E; lia|reflexivity].
Qed.

Lemma nth_error_last {A : Type} (l : list A) (d : A) :
  l <> [] -> nth_error l (List.length l - 1) = Some (last l d).
Proof.
  induction l as [|a l IH]; [congruence|]. intros _.
  destruct l as [|b l]; [reflexivity|].
  specialize (IH ltac:(discriminate)).
  simpl List.length in *. replace (S (S (List.length l)) - 1)%nat with (S (List.length l)) by lia.
  change (nth_error (a :: b :: l) (S (List.length l))) with (nth_error (b :: l) (List.length l)).
  replace (S (List.length l) - 1)%nat with (List.length l) in IH by lia.
  rewrite IH. reflexivity.
Qed.

Lemma last_map_Some {A : Type} (l : list A) (d : A) :
  l <> [] -> last (map Some l) None = Some (last l d).
Proof.
  induction l as [|a l IH]; [congruence|]. intros _.
  destruct l as [|b l]; [reflexivity|].
  specialize (IH ltac:(discriminate)). exact IH.
Qed.

(** A list of points that are all there is classified by its two ends. *)
Lemma classify_whole (ps : list MeasuredPoint) :
  ps <> [] ->
  classify PointWithMeasure.equals (map Some ps) (Z.of_nat (List.length ps)) =
  Normal (ring_or_line ps).
Proof.
  intros Hne. destruct ps as [|first ps]; [congruence|].
  unfold classify, ring_or_line.
  cbn [map]. rewrite at_index_first.
  rewrite at_index_nat by (simpl List.length; lia).
  replace (Z.to_nat (Z.of_nat (List.length (first :: ps)) - 1))
    with (List.length (Some first :: map Some ps) - 1)%nat
    by (simpl List.length; rewrite length_map; lia).
  rewrite (nth_error_last _ None) by discriminate.
  change (Some first :: map Some ps) with (map Some (first :: ps)).
  rewrite (last_map_Some (first :: ps) first) by discriminate.
  unfold PointWithMeasure.equals, coordinate_equal.
  destruct (_ && _); reflexivity.
Qed.

Lemma sum_cons (n : Z) (parts : list Z) : sum (n :: parts) = n + sum parts.
Proof. reflexivity. Qed.

Lemma sum_at_least (parts : list Z) : Forall (fun n => 1 <= n) parts -> 0 <= sum parts.
Proof.
  induction 1 as [|n parts Hn _ IH]; [reflexivity|]. rewrite sum_cons. lia.
Qed.

(** One turn of the outer loop on a part that lies within the array. *)
Lemma part_within (geoPoints : list PointJson) (pointIndex n : Z) :
  0 <= pointIndex -> 1 <= n -> pointIndex + n <= Z.of_nat (List.length geoPoints) ->
  (pointList <- part_points PointWithMeasure.fromJson geoPoints pointIndex n ;;
   classify PointWithMeasure.equals pointList n) =
  Normal (ring_or_line (firstn (Z.to_nat n)
                          (skipn (Z.to_nat pointIndex) (map decode_point geoPoints)))).
Proof.
  intros Hi Hn Hlen. rewrite part_points_within by lia. cbn [bind].
  set (ps := firstn _ _).
  assert (Hps : List.length ps = Z.to_nat n).
  { subst ps. rewrite length_firstn, length_skipn, length_map. lia. }
  replace n with (Z.of_nat (List.length ps)) at 1 by lia.
  apply classify_whole. intros E. rewrite E in Hps. simpl in Hps. lia.
Qed.

Lemma lines_within (geoPoints : list PointJson) (geoParts : list Z) :
  forall pointIndex,
    Forall (fun n => 1 <= n) geoParts ->
    0 <= pointIndex ->
    pointIndex + sum geoParts <= Z.of_nat (List.length geoPoints) ->
    lines PointWithMeasure.fromJson PointWithMeasure.equals geoPoints geoParts pointIndex =
    Normal (map ring_or_line
              (chunks (skipn (Z.to_nat pointIndex) (map decode_point geoPoints)) geoParts)).
Proof.
  induction geoParts as [|n rest IH]; intros pointIndex Hparts Hi Hlen; [reflexivity|].
  inversion Hparts as [|? ? Hn Hrest]; subst.
  pose proof (sum_at_least _ Hrest) as Hsum. rewrite sum_cons in Hlen.
  cbn [lines chunks map].
  pose proof (part_within geoPoints pointIndex n Hi Hn ltac:(lia)) as Hpart.
  destruct (part_points _ _ _ _) as [pointList|e]; cbn [bind] in *; [|discriminate].
  rewrite Hpart. cbn [bind].
  rewrite IH by (auto; lia). cbn [bind].
  rewrite skipn_skipn.
  replace (Z.to_nat (pointIndex + n)) with (Z.to_nat n + Z.to_nat pointIndex)%nat by lia.
  reflexivity.
Qed.

Lemma length_chunks {A : Type} (parts : list Z) :
  forall l : list A, List.length (chunks l parts) = List.length parts.
Proof. induction parts as [|n rest IH]; intros l; simpl; [reflexivity | now rewrite IH]. Qed.

Lemma line_points_ring_or_line (ps : list MeasuredPoint) :
  line_points (ring_or_line ps) = map Some ps.
Proof.
  destruct ps as [|first ps]; [reflexivity|]. unfold ring_or_line.
  destruct (coordinate_equal _ _); reflexivity.
Qed.

Lemma count_chunks (parts : list Z) :
  forall l : list MeasuredPoint,
    Forall (fun n => 1 <= n) parts ->
    sum parts <= Z.of_nat (List.length l) ->
    Z.of_nat (count_points (map ring_or_line (chunks l parts))) = sum parts.
Proof.
  induction parts as [|n rest IH]; intros l Hparts Hlen; [reflexivity|].
  inversion Hparts as [|? ? Hn Hrest]; subst.
  pose proof (sum_at_least _ Hrest) as Hsum. rewrite sum_cons in *.
  cbn [chunks map count_points fold_right].
  fold (count_points (map ring_or_line (chunks (skipn (Z.to_nat n) l) rest))).
  rewrite line_points_ring_or_line, length_map, length_firstn, Nat2Z.inj_add.
  rewrite IH by (auto; rewrite length_skipn; lia). lia.
Qed.

End Loop.

(** X24.  For parts that lie within the points array, each of one point
    at least, the lines that the loop pushes are the chunks of the
    decoded points that the parts describe, each a ring when its first
    and its last point are coordinate-equal and a line string
    otherwise. *)
Lemma loop_classifies_parts_by_their_ends
  (geoPoints : list Route.PointJson) (geoParts : list Z) :
  Forall (fun n => (1 <= n)%Z) geoParts ->
  (Partition.sum geoParts <= Z.of_nat (List.length geoPoints))%Z ->
  Route.lines PointWithMeasure.fromJson PointWithMeasure.equals geoPoints geoParts 0 =
  Normal (map Partition.ring_or_line
            (Partition.chunks (map Partition.decode_point geoPoints) geoParts)).
Proof.
  intros Hparts Hlen. rewrite lines_within by (auto; lia). reflexivity.
Qed.

Lemma loop_classifies_parts_by_their_ends_witness :
  Route.lines PointWithMeasure.fromJson PointWithMeasure.equals
    (Fixtures.closed_part ++ Fixtures.open_part) [4%Z; 3%Z] 0 =
  Normal [Route.LinearRing (map (fun p => Some (Partition.decode_point p)) Fixtures.closed_part);
          Route.LineString (map (fun p => Some (Partition.decode_point p)) Fixtures.open_part)].
Proof.
  refine (loop_classifies_parts_by_their_ends
            (Fixtures.closed_part ++ Fixtures.open_part) [4%Z; 3%Z] _ _).
  - repeat constructor; lia.
  - vm_compute. discriminate.
Defined.

Lemma constructor_forgets_the_lines (l1 l2 : list Route.Line) (options : Route.Options) :
  Route.constructor l1 options = Route.constructor l2 options.
Proof. reflexivity. Qed.

(** C2.  The loop pushes a ring for the four points of the description
    and a line for its three points, and a line for four points that do
    not close.  But no ring and no line is found in what [fromJson]
    returns: the closed part and the open part of four points decode to
    the same instance, without components, and so do any two wire forms
    with the same metadata and parts, whatever their points. *)
Theorem closed_and_open_parts_decode_alike :
  Route.lines PointWithMeasure.fromJson PointWithMeasure.equals Fixtures.closed_part [4%Z] 0 =
    Normal [Route.LinearRing (map (fun p => Some (Partition.decode_point p)) Fixtures.closed_part)]
  /\ Route.lines PointWithMeasure.fromJson PointWithMeasure.equals Fixtures.open_part [3%Z] 0 =
     Normal [Route.LineString (map (fun p => Some (Partition.decode_point p)) Fixtures.open_part)]
  /\ Route.lines PointWithMeasure.fromJson PointWithMeasure.equals Fixtures.open_four [4%Z] 0 =
     Normal [Route.LineString (map (fun p => Some (Partition.decode_point p)) Fixtures.open_four)]
  /\ Route.fromJson PointWithMeasure.fromJson PointWithMeasure.equals
       (Some (Fixtures.wire (Some [4%Z]) (Some Fixtures.closed_part))) =
     Normal (Route.Instance
               {| Route.id := Some 7%Z; Route.center := None; Route.style := None;
                  Route.length := Some 5%Z; Route.maxM := Some 3%Z; Route.minM := Some 0%Z;
                  Route.type := Some "LINEM"; Route.parts := Some [4%Z];
                  Route.components := None |})
  /\ Route.fromJson PointWithMeasure.fromJson PointWithMeasure.equals
       (Some (Fixtures.wire (Some [4%Z]) (Some Fixtures.open_four))) =
     Route.fromJson PointWithMeasure.fromJson PointWithMeasure.equals
       (Some (Fixtures.wire (Some [4%Z]) (Some Fixtures.closed_part)))
  /\ (forall F equals a b ra rb,
        Route.options_of a = Route.options_of b ->
        Route.fromJson F equals (Some a) = Normal (Route.Instance ra) ->
        Route.fromJson F equals (Some b) = Normal (Route.Instance rb) ->
        ra = rb).
Proof.
  do 5 (split; [reflexivity|]).
  intros F equals a b ra rb Hab. unfold Route.fromJson.
  destruct (Nat.ltb 0 _); [|discriminate].
  destruct (Route.lines _ _ _ _ _) as [la|e]; cbn [bind]; [|discriminate].
  intros Ha. injection Ha as <-.
  destruct (Nat.ltb 0 _); [|discriminate].
  destruct (Route.lines _ _ _ _ _) as [lb|e]; cbn [bind]; [|discriminate].
  intros Hb. injection Hb as <-.
  rewrite Hab. apply constructor_forgets_the_lines.
Qed.

(** X13.  When the parts, of one point each at least, add up to the
    number of points, the list of lines that the loop hands to the
    constructor has one line for each part and as many points as the
    parts announce. *)
Lemma lines_follow_the_partition (geoPoints : list Route.PointJson) (geoParts : list Z) :
  Forall (fun n => (1 <= n)%Z) geoParts ->
  Partition.sum geoParts = Z.of_nat (List.length geoPoints) ->
  exists lineList,
    Route.lines PointWithMeasure.fromJson PointWithMeasure.equals geoPoints geoParts 0 =
      Normal lineList
    /\ List.length lineList = List.length geoParts
    /\ Z.of_nat (Partition.count_points lineList) = Partition.sum geoParts.
Proof.
  intros Hparts Hsum.
  exists (map Partition.ring_or_line
            (Partition.chunks (map Partition.decode_point geoPoints) geoParts)).
  split; [|split].
  - rewrite lines_within by (auto; lia). reflexivity.
  - rewrite length_map. apply length_chunks.
  - apply count_chunks; [assumption | rewrite length_map; lia].
Qed.

(** C3.  The parts of the wire form add up to its seven points, and the
    loop builds one line for each part; but the instance that [fromJson]
    returns has no components: the field initialiser [components = null]
    of the class body runs after the collection has stored the lines.
    This is so for every instance that [fromJson] returns. *)
Theorem components_lost_in_construction :
  Partition.sum [4; 3]%Z = Z.of_nat (List.length (Fixtures.closed_part ++ Fixtures.open_part)%list)
  /\ Route.fromJson PointWithMeasure.fromJson PointWithMeasure.equals (Some Fixtures.route_json) =
     Normal (Route.Instance
               {| Route.id := Some 7%Z; Route.center := None; Route.style := None;
                  Route.length := Some 5%Z; Route.maxM := Some 3%Z; Route.minM := Some 0%Z;
                  Route.type := Some "LINEM"; Route.parts := Some [4; 3]%Z;
                  Route.components := None |})
  /\ (forall F equals jsonObject route,
        Route.fromJson F equals jsonObject = Normal (Route.Instance route) ->
        Route.components route = None).
Proof.
  split; [reflexivity | split; [reflexivity|]].
  intros F equals [jsonObject|] route; [|discriminate].
  unfold Route.fromJson.
  destruct (Nat.ltb 0 _); [|discriminate].
  destruct (Route.lines _ _ _ _ _) as [lineList|e]; cbn [bind]; [|discriminate].
  intros H. injection H as <-. reflexivity.
Qed.

(** C8.  A wire form whose parts are missing or empty gives [null], not
    an instance. *)
Theorem no_parts_no_route
  (F : option Route.PointJson -> Completion (option Route.MeasuredPoint))
  (equals : Route.MeasuredPoint -> option Route.MeasuredPoint -> bool)
  (jsonObject : Route.Json) :
  Route.json_parts jsonObject = None \/ Route.json_parts jsonObject = Some [] ->
  Route.fromJson F equals (Some jsonObject) = Normal Route.Null.
Proof.
  intros [H|H]; unfold Route.fromJson; rewrite H; reflexivity.
Qed.

Lemma no_parts_no_route_witness :
  Route.fromJson PointWithMeasure.fromJson PointWithMeasure.equals
    (Some (Fixtures.wire (Some []) (Some Fixtures.open_part))) = Normal Route.Null.
Proof.
  exact (no_parts_no_route PointWithMeasure.fromJson PointWithMeasure.equals
           (Fixtures.wire (Some []) (Some Fixtures.open_part)) (or_intror eq_refl)).
Defined.

(** ** A points array shorter than the parts announce *)

Section ShortArray.

Import Route Partition.
Local Open Scope Z_scope.

Variable F : option PointJson -> Completion (option MeasuredPoint).
Variable equals : MeasuredPoint -> option MeasuredPoint -> bool.
Variable e : Error.
Hypothesis F_missing : F None = Throw e.







(** When every entry that is there is read as a point, the error is
    that of the first entry that is not. *)
Hypothesis F_present : forall p, exists q, F (Some p) = Normal (Some q).







End ShortArray.



(** ** Runs of characters of one kind *)

Section GreedyRun.

Import Js.

Context {R : Type}.
Variables (p : ascii -> bool) (k : string -> captures -> option R).
Variable body : string -> captures -> (string -> captures -> option R) -> option R.
Hypothesis body_is_char :
  forall s caps k',
    body s caps k' =
    match s with
    | String c s' => if p c then k' s' caps else None
    | EmptyString => None
    end.

(** A greedy run of characters of [p] in front of a text that begins
    with another character: the run is taken whole when the rest of
    the pattern matches after it. *)
Lemma iterate_greedy_run (w : string) :
  forall fuel t caps x,
    all_chars p w = true -> not_headed p t ->
    String.length (w ++ t) <= fuel ->
    k t caps = Some x ->
    iterate body true k fuel (w ++ t) caps = Some x.
Proof.
  induction w as [|c w IH]; intros fuel t caps x Hw Ht Hf Hk.
  - cbn [append]. destruct fuel as [|fuel]; [exact Hk|].
    cbn [iterate]. rewrite body_is_char. destruct t as [|c t]; [exact Hk|].
    cbn [not_headed] in Ht. rewrite Ht. exact Hk.
  - cbn [all_chars] in Hw. apply andb_prop in Hw. destruct Hw as [Hc Hw].
    cbn [append String.length] in *.
    destruct fuel as [|fuel]; [lia|].
    cbn [iterate]. rewrite body_is_char, Hc.
    replace (Nat.ltb (String.length (w ++ t)) (String.length (String c (w ++ t)))) with true
      by (symmetry; apply Nat.ltb_lt; simpl; lia).
    rewrite (IH fuel t caps x) by (auto; lia). reflexivity.
Qed.

End GreedyRun.

(** ** The text that [toJson] builds *)

Lemma match_trailing_comma (total : nat) (s : string) :
  Js.match_here total Route.trailingComma s =
  match s with
  | String c EmptyString => if Js.is_char "," c then Some ("", []) else None
  | _ => None
  end.
Proof.
  unfold Route.trailingComma, Js.match_here, Js.lit. cbn [Js.rmatch].
  destruct s as [|c [|d s]]; try reflexivity.
  destruct (Js.is_char "," c); reflexivity.
Qed.

Lemma is_comma (c : ascii) : Js.is_char "," c = Ascii.eqb c ",".
Proof. unfold Js.is_char. apply Ascii.eqb_sym. Qed.

Lemma search_trailing_comma (total : nat) (s : string) :
  (Js.search total Route.trailingComma s = None /\ Js.drop_last "," s = s)
  \/ (s <> "" /\
      Js.search total Route.trailingComma s = Some (Js.drop_last "," s, "", [])).
Proof.
  induction s as [|c s IH].
  - left. split; reflexivity.
  - cbn [Js.search]. rewrite match_trailing_comma.
    destruct s as [|d s].
    + cbn [Js.drop_last]. rewrite is_comma.
      destruct (Ascii.eqb c ","); [right | left]; split; try reflexivity. discriminate.
    + destruct IH as [[E1 E2]|[_ E]].
      * left. rewrite E1. cbn [Js.drop_last]. cbn [Js.drop_last] in E2. now rewrite E2.
      * right. rewrite E. split; [discriminate | reflexivity].
Qed.

(** The pattern for a comma at the end takes the last comma away. *)
Lemma replace_trailing_comma (s : string) :
  Js.replace_all Route.trailingComma [] s = Js.drop_last "," s.
Proof.
  unfold Js.replace_all. cbn [Js.replace_all_from].
  destruct (search_trailing_comma (String.length s) s) as [[E1 E2]|[Hne E]].
  - now rewrite E1, E2.
  - rewrite E. cbn [Js.expand append String.length].
    destruct s as [|c s]; [congruence|]. cbn [String.length Nat.ltb Nat.leb].
    destruct (String.length s); cbn [Js.replace_all_from Js.search];
      rewrite ?match_trailing_comma; apply append_empty_r.
Qed.

Lemma drop_last_after (c : ascii) (a b : string) :
  b <> "" -> Js.drop_last c (a ++ b) = a ++ Js.drop_last c b.
Proof.
  intros Hb. induction a as [|x a IH]; [reflexivity|].
  cbn [append Js.drop_last]. rewrite IH.
  destruct (a ++ b) eqn:E; [|reflexivity].
  destruct a; [simpl in E; congruence | discriminate].
Qed.

Lemma drop_last_comma (a : string) : Js.drop_last "," (a ++ ",") = a.
Proof.
  induction a as [|x a IH]; [reflexivity|].
  cbn [append Js.drop_last]. rewrite IH.
  destruct (a ++ ",") eqn:E; [|reflexivity].
  destruct a; discriminate.
Qed.



Section Shape.

Import Route.

Variable point_toJson : MeasuredPoint -> string.

Lemma append_parts_after (rest : list Z) :
  forall result, append_parts result rest = result ++ append_parts "" rest.
Proof.
  induction rest as [|n rest IH]; intros result; cbn [append_parts].
  - now rewrite append_empty_r.
  - rewrite IH, (IH ("" ++ _)). cbn [append]. now rewrite !append_assoc.
Qed.







End Shape.

(** ** Reading the text back against the schema *)
















(** ** The style in the text of a route *)




(** ** More on the matcher *)

Lemma consumed_prefix (a b : string) : Js.consumed (a ++ b) b = a.
Proof.
  unfold Js.consumed. rewrite length_append, Nat.add_sub.
  induction a as [|c a IH]; cbn [append String.length substring].
  - destruct b; reflexivity.
  - now rewrite IH.
Qed.

Section Runs.

Import Js.

Context {R : Type}.
Variables (p : ascii -> bool) (k : string -> captures -> option R).
Variable body : string -> captures -> (string -> captures -> option R) -> option R.
Hypothesis body_is_char :
  forall s caps k',
    body s caps k' =
    match s with
    | String c s' => if p c then k' s' caps else None
    | EmptyString => None
    end.

(** A greedy run that nothing can follow, wherever it is cut. *)
Lemma iterate_greedy_fails (w : string) :
  forall fuel t caps,
    all_chars p w = true -> not_headed p t ->
    (forall w1 w2, w = w1 ++ w2 -> k (w2 ++ t) caps = None) ->
    iterate body true k fuel (w ++ t) caps = None.
Proof.
  induction w as [|c w IH]; intros fuel t caps Hw Ht Hk.
  - cbn [append]. specialize (Hk "" "" eq_refl). cbn [append] in Hk.
    destruct fuel as [|fuel]; [exact Hk|].
    cbn [iterate]. rewrite body_is_char. destruct t as [|c t]; [exact Hk|].
    cbn [not_headed] in Ht. rewrite Ht. exact Hk.
  - cbn [all_chars] in Hw. apply andb_prop in Hw. destruct Hw as [Hc Hw].
    cbn [append].
    destruct fuel as [|fuel]; [exact (Hk "" (String c w) eq_refl)|].
    cbn [iterate]. rewrite body_is_char, Hc.
    destruct (Nat.ltb _ _).
    + rewrite IH; auto.
      * exact (Hk "" (String c w) eq_refl).
      * intros w1 w2 E. apply (Hk (String c w1) w2). cbn [append]. now rewrite E.
    + exact (Hk "" (String c w) eq_refl).
Qed.

End Runs.

Lemma run_and_rest (p : ascii -> bool) (v : string) :
  exists w t, v = w ++ t /\ Js.all_chars p w = true /\ Js.not_headed p t.
Proof.
  induction v as [|c v (w & t & E & Hw & Ht)].
  - exists "", "". repeat split.
  - destruct (p c) eqn:Hc.
    + exists (String c w), t. cbn [append Js.all_chars]. rewrite Hc, Hw, <- E. repeat split. exact Ht.
    + exists "", (String c v). repeat split. exact Hc.
Qed.

Lemma all_chars_stopped (p : ascii -> bool) (w : string) (c : ascii) (x : string) :
  p c = false -> Js.all_chars p (w ++ String c x) = false.
Proof.
  intros Hc. rewrite all_chars_append. cbn [Js.all_chars]. rewrite Hc.
  now rewrite andb_false_r.
Qed.

Lemma is_space_body total :
  forall s caps (k' : string -> Js.captures -> option (string * Js.captures)),
    Js.rmatch total (Js.Chr Js.is_space) s caps k' =
    match s with
    | String c s' => if Js.is_space c then k' s' caps else None
    | EmptyString => None
    end.
Proof. reflexivity. Qed.

(** White space up to the end of the text. *)
Lemma spaces_to_the_end total (v : string) (caps : Js.captures) :
  Js.rmatch total (Js.Seq Js.ws Js.Eol) v caps (fun s' caps' => Some (s', caps')) =
  if Js.all_chars Js.is_space v then Some ("", caps) else None.
Proof.
  cbn [Js.rmatch Js.ws].
  destruct (run_and_rest Js.is_space v) as (w & t & -> & Hw & Ht).
  destruct t as [|c x].
  - rewrite append_empty_r, Hw. rewrite <- (append_empty_r w) at 2.
    apply (iterate_greedy_run Js.is_space); auto using is_space_body.
    rewrite append_empty_r. apply le_n.
  - cbn [Js.not_headed] in Ht. rewrite (all_chars_stopped _ _ _ _ Ht).
    apply (iterate_greedy_fails Js.is_space); auto using is_space_body.
    intros w1 w2 _. destruct w2; reflexivity.
Qed.

Lemma closing_paren_is (c : ascii) : Js.is_char ")" c = true -> c = ")"%char.
Proof. unfold Js.is_char. intros H. apply Ascii.eqb_eq in H. now subst. Qed.

Lemma rmatch_Seq {R : Type} total r1 r2 s caps (k : string -> Js.captures -> option R) :
  Js.rmatch total (Js.Seq r1 r2) s caps k =
  Js.rmatch total r1 s caps (fun s' caps' => Js.rmatch total r2 s' caps' k).
Proof. reflexivity. Qed.

Lemma rmatch_Chr {R : Type} total p s caps (k : string -> Js.captures -> option R) :
  Js.rmatch total (Js.Chr p) s caps k =
  match s with
  | String c s' => if p c then k s' caps else None
  | EmptyString => None
  end.
Proof. reflexivity. Qed.

Lemma rmatch_Group {R : Type} total n r1 s caps (k : string -> Js.captures -> option R) :
  Js.rmatch total (Js.Group n r1) s caps k =
  Js.rmatch total r1 s caps (fun s' caps' => k s' ((n, Js.consumed s s') :: caps')).
Proof. reflexivity. Qed.

Lemma rmatch_Star {R : Type} total g r1 s caps (k : string -> Js.captures -> option R) :
  Js.rmatch total (Js.Star g r1) s caps k =
  Js.iterate (Js.rmatch total r1) g k (String.length s) s caps.
Proof. reflexivity. Qed.

Lemma rmatch_Bol {R : Type} total s caps (k : string -> Js.captures -> option R) :
  Js.rmatch total Js.Bol s caps k =
  if Nat.eqb (String.length s) total then k s caps else None.
Proof. reflexivity. Qed.

Lemma search_here total r (s rest : string) (caps : Js.captures) :
  Js.match_here total r s = Some (rest, caps) -> Js.search total r s = Some ("", rest, caps).
Proof. intros H. destruct s; cbn [Js.search]; rewrite H; reflexivity. Qed.

(** White space that is not there. *)
Lemma no_spaces_here {R : Type} total (s : string) (caps : Js.captures)
      (k : string -> Js.captures -> option R) :
  Js.not_headed Js.is_space s -> Js.rmatch total Js.ws s caps k = k s caps.
Proof.
  intros H. unfold Js.ws. rewrite rmatch_Star.
  destruct (String.length s); cbn [Js.iterate]; [reflexivity|].
  rewrite rmatch_Chr. destruct s as [|c s]; [reflexivity|].
  cbn [Js.not_headed] in H. now rewrite H.
Qed.

Lemma word_is_no_space (c : ascii) : Js.is_word c = true -> Js.is_space c = false.
Proof.
  destruct c as [[] [] [] [] [] [] [] []]; vm_compute; intros H;
    first [discriminate H | reflexivity].
Qed.

(** ** Texts that are left alone, and texts cut at their separators *)

Lemma search_lineBreak (total : nat) (s : string) :
  Js.all_chars Js.is_dot s = true -> Js.search total WKT.lineBreak s = None.
Proof.
  induction s as [|c s IH]; cbn [Js.all_chars]; intros H; [reflexivity|].
  apply andb_prop in H. destruct H as [Hc Hs]. unfold Js.is_dot in Hc.
  apply negb_true_iff in Hc.
  cbn [Js.search]. unfold Js.match_here, WKT.lineBreak. rewrite rmatch_Chr, Hc.
  fold WKT.lineBreak. now rewrite IH.
Qed.

(** *** Stretches in which a pattern matches nowhere *)

Lemma quiet_tail (r : Js.regex) (c : ascii) (a s : string) :
  quiet r (String c a) s -> quiet r a s.
Proof.
  intros H total a1 a2 E Hne. apply (H total (String c a1) a2); [|exact Hne].
  cbn [append]. now rewrite E.
Qed.

Lemma split_from_quiet (r : Js.regex) (total : nat) (a : string) :
  forall fuel piece s,
    quiet r a s -> String.length a <= fuel ->
    Js.split_from fuel total r piece (a ++ s) =
    Js.split_from (fuel - String.length a) total r (piece ++ a) s.
Proof.
  induction a as [|c a IH]; intros fuel piece s Hq Hf; cbn [append String.length] in *.
  - now rewrite Nat.sub_0_r, append_empty_r.
  - destruct fuel as [|fuel]; [lia|]. cbn [Js.split_from].
    pose proof (Hq total "" (String c a) eq_refl ltac:(discriminate)) as H0.
    cbn [append] in H0. rewrite H0.
    rewrite IH by (eauto using quiet_tail; lia).
    now rewrite append_assoc.
Qed.

Lemma append_split (a b a1 a2 : string) :
  a ++ b = a1 ++ a2 ->
  (exists x, a = a1 ++ x /\ a2 = x ++ b) \/ (exists y, a1 = a ++ y /\ b = y ++ a2).
Proof.
  revert a1. induction a as [|c a IH]; intros a1 E; cbn [append] in *.
  - right. exists a1. split; [reflexivity | exact E].
  - destruct a1 as [|d a1]; cbn [append] in *.
    + left. exists (String c a). split; [reflexivity | now rewrite <- E].
    + injection E as -> E. destruct (IH _ E) as [(x & -> & ->)|(y & -> & ->)].
      * left. exists x. split; reflexivity.
      * right. exists y. split; reflexivity.
Qed.

Lemma quiet_app (r : Js.regex) (a b s : string) :
  quiet r a (b ++ s) -> quiet r b s -> quiet r (a ++ b) s.
Proof.
  intros Ha Hb total a1 a2 E Hne.
  destruct (append_split _ _ _ _ E) as [(x & -> & ->)|(y & -> & ->)].
  - destruct x as [|c x].
    + cbn [append] in *. apply (Hb total "" b eq_refl Hne).
    + rewrite append_assoc. apply (Ha total a1 (String c x) eq_refl). discriminate.
  - apply (Hb total y a2 eq_refl Hne).
Qed.

Lemma quiet_nothing (r : Js.regex) (s : string) : quiet r "" s.
Proof.
  intros total a1 a2 E Hne. destruct a1, a2; try discriminate. congruence.
Qed.

Lemma quiet_without (r : Js.regex) (p : ascii -> bool) (a s : string) :
  (forall total t, Js.not_headed p t -> Js.match_here total r t = None) ->
  Js.all_chars (fun c => negb (p c)) a = true ->
  quiet r a s.
Proof.
  intros Hr Ha total a1 a2 -> Hne. apply Hr.
  rewrite all_chars_append in Ha. apply andb_prop in Ha. destruct Ha as [_ Ha].
  destruct a2 as [|c a2]; [congruence|].
  cbn [append Js.not_headed Js.all_chars] in *.
  apply andb_prop in Ha. destruct Ha as [Hc _]. now apply negb_true_iff in Hc.
Qed.

Section Joined.

Variables (r : Js.regex) (sep : string).
Hypothesis sep_not_empty : sep <> "".
Hypothesis sep_matches : forall total x, Js.match_here total r (sep ++ x) = Some (x, []).

Lemma split_from_join (total : nat) (post : string) (ts : list string) :
  forall fuel piece,
    ts <> [] ->
    Forall (fun t => forall s, quiet r t s) ts ->
    quiet r post "" ->
    String.length (Js.join sep ts ++ post) < fuel ->
    Js.split_from fuel total r piece (Js.join sep ts ++ post) = frame piece post ts.
Proof.
  induction ts as [|t ts IH]; intros fuel piece Hne Hall Hpost Hf; [congruence|].
  inversion Hall as [|? ? Ht Hts]; subst.
  destruct ts as [|t2 ts].
  - cbn [Js.join frame] in *.
    rewrite <- (append_empty_r (t ++ post)) at 1.
    rewrite split_from_quiet.
    + destruct (fuel - _) eqn:E; [lia|]. cbn [Js.split_from]. reflexivity.
    + apply quiet_app; [apply Ht | exact Hpost].
    + lia.
  - change (Js.join sep (t :: t2 :: ts)) with (t ++ sep ++ Js.join sep (t2 :: ts)) in *.
    cbn [frame]. rewrite !append_assoc in *. rewrite !length_append in Hf.
    rewrite split_from_quiet by (auto; lia).
    destruct (fuel - String.length t) as [|fuel'] eqn:E; [lia|].
    destruct sep as [|c sep'] eqn:Es; [congruence|]. cbn [append Js.split_from].
    pose proof (sep_matches total (Js.join (String c sep') (t2 :: ts) ++ post)) as Hm.
    cbn [append] in Hm. rewrite Hm.
    replace (Nat.eqb _ _) with false
      by (symmetry; apply Nat.eqb_neq; cbn [String.length]; rewrite !length_append; lia).
    cbn [andb]. f_equal.
    apply IH; auto; [discriminate|].
    cbn [String.length] in Hf. rewrite !length_append in *. lia.
Qed.

(** A text built from [ts] with the separator between them is split at
    the separators. *)
Lemma split_join (pre post : string) (ts : list string) :
  ts <> [] ->
  (forall s, quiet r pre s) ->
  Forall (fun t => forall s, quiet r t s) ts ->
  quiet r post "" ->
  pre ++ Js.join sep ts ++ post <> "" ->
  Js.split r (pre ++ Js.join sep ts ++ post) = frame pre post ts.
Proof.
  intros Hne Hpre Hall Hpost Htext. unfold Js.split.
  destruct (pre ++ Js.join sep ts ++ post) as [|c s] eqn:E; [congruence|].
  rewrite <- E. rewrite split_from_quiet.
  - cbn [append]. apply split_from_join; auto.
    rewrite !length_append. lia.
  - apply Hpre.
  - rewrite !length_append. lia.
Qed.

End Joined.

(** White space in front of the next character of the pattern is taken
    whole. *)
Ltac skip_spaces :=
  apply (iterate_greedy_run Js.is_space);
  [ intros; reflexivity | assumption | reflexivity | apply le_n | ].

Lemma parenComma_at_spaced_boundary total (w1 w2 b : string) :
  Js.all_chars Js.is_space w1 = true -> Js.all_chars Js.is_space w2 = true ->
  Js.match_here total WKT.parenComma (")" ++ w1 ++ "," ++ w2 ++ "(" ++ b) = Some (b, []).
Proof.
  intros H1 H2. unfold WKT.parenComma, Js.match_here.
  cbn [Js.seq Js.rmatch Js.lit Js.ws append]. char_tests.
  skip_spaces. cbn [Js.rmatch]. char_tests.
  skip_spaces. cbn [Js.rmatch]. char_tests. reflexivity.
Qed.

Lemma doubleParenComma_at_spaced_boundary total (w1 w2 w3 w4 b : string) :
  Js.all_chars Js.is_space w1 = true -> Js.all_chars Js.is_space w2 = true ->
  Js.all_chars Js.is_space w3 = true -> Js.all_chars Js.is_space w4 = true ->
  Js.match_here total WKT.doubleParenComma
    (")" ++ w1 ++ ")" ++ w2 ++ "," ++ w3 ++ "(" ++ w4 ++ "(" ++ b) = Some (b, []).
Proof.
  intros H1 H2 H3 H4. unfold WKT.doubleParenComma, Js.match_here.
  cbn [Js.seq Js.rmatch Js.lit Js.ws append]. char_tests.
  skip_spaces. cbn [Js.rmatch]. char_tests.
  skip_spaces. cbn [Js.rmatch]. char_tests.
  skip_spaces. cbn [Js.rmatch]. char_tests.
  skip_spaces. cbn [Js.rmatch]. char_tests. reflexivity.
Qed.

(** ** Any number of groups *)

Lemma quiet_cons (r : Js.regex) (c : ascii) (a s : string) :
  (forall total, Js.match_here total r (String c a ++ s) = None) ->
  quiet r a s -> quiet r (String c a) s.
Proof.
  intros Hc Ha total a1 a2 E Hne. destruct a1 as [|d a1]; cbn [append] in E.
  - subst a2. apply Hc.
  - injection E as _ E. now apply (Ha total a1 a2).
Qed.

Lemma quiet_no_closing (r : Js.regex) (a s : string) :
  (forall total t, Js.not_headed (Js.is_char ")") t -> Js.match_here total r t = None) ->
  Js.free_of ")" a = true -> quiet r a s.
Proof. intros Hr Ha. now apply (quiet_without r (Js.is_char ")")). Qed.

Lemma doubleParenComma_not_between (s : string) : quiet WKT.doubleParenComma "),(" s.
Proof.
  repeat (apply quiet_cons; [intros total; unfold WKT.doubleParenComma; run_match; reflexivity|]).
  apply quiet_nothing.
Qed.

(** [doubleParenComma] matches nowhere in groups joined at single
    parentheses. *)
Lemma groups_quiet (ts : list string) :
  Forall (fun t => Js.free_of ")" t = true) ts ->
  forall s, quiet WKT.doubleParenComma (Js.join "),(" ts) s.
Proof.
  induction 1 as [|t ts Ht Hts IH]; intros s; [apply quiet_nothing|].
  assert (Hq : forall x, quiet WKT.doubleParenComma t x).
  { intros x. now apply quiet_no_closing; [apply doubleParenComma_only_at|]. }
  destruct ts as [|t2 ts]; [apply Hq|].
  change (Js.join "),(" (t :: t2 :: ts)) with (t ++ "),(" ++ Js.join "),(" (t2 :: ts)).
  apply quiet_app; [apply Hq|]. apply quiet_app; [apply doubleParenComma_not_between | apply IH].
Qed.

Lemma parenComma_not_at_end (post : string) :
  post = "" \/ post = ")" -> quiet WKT.parenComma post "".
Proof.
  intros [-> | ->]; [apply quiet_nothing|].
  apply quiet_cons; [|apply quiet_nothing]. intros total. reflexivity.
Qed.

Lemma doubleParenComma_not_at_end : quiet WKT.doubleParenComma "))" "".
Proof.
  repeat (apply quiet_cons; [intros total; unfold WKT.doubleParenComma; run_match; reflexivity|]).
  apply quiet_nothing.
Qed.

(** The groups of a body in parentheses. *)
Lemma split_paren_groups (ts : list string) :
  ts <> [] -> Forall (fun t => Js.free_of ")" t = true) ts ->
  Js.split WKT.parenComma ("(" ++ Js.join "),(" ts ++ ")") = frame "(" ")" ts.
Proof.
  intros Hne Hall. apply split_join.
  - discriminate.
  - intros total x. apply parenComma_at_boundary.
  - exact Hne.
  - intros s. now apply quiet_no_closing; [apply parenComma_only_at|].
  - eapply Forall_impl; [|exact Hall]. intros t Ht s.
    now apply quiet_no_closing; [apply parenComma_only_at|].
  - apply parenComma_not_at_end. now right.
  - discriminate.
Qed.

(** The groups of groups of a body in double parentheses. *)
Lemma split_double_paren_groups (tss : list (list string)) :
  tss <> [] -> Forall (Forall (fun t => Js.free_of ")" t = true)) tss ->
  Js.split WKT.doubleParenComma ("((" ++ Js.join ")),((" (map (Js.join "),(") tss) ++ "))") =
  frame "((" "))" (map (Js.join "),(") tss).
Proof.
  intros Hne Hall. apply split_join.
  - discriminate.
  - intros total x. apply doubleParenComma_at_boundary.
  - now destruct tss.
  - intros s. now apply quiet_no_closing; [apply doubleParenComma_only_at|].
  - apply Forall_map. eapply Forall_impl; [|exact Hall]. intros ts Hts. now apply groups_quiet.
  - apply doubleParenComma_not_at_end.
  - discriminate.
Qed.

Lemma split_spaced (a w1 w2 b : string) :
  Js.free_of ")" a = true -> Js.free_of ")" b = true ->
  Js.all_chars Js.is_space w1 = true -> Js.all_chars Js.is_space w2 = true ->
  Js.split WKT.parenComma (a ++ ")" ++ w1 ++ "," ++ w2 ++ "(" ++ b) = [a; b].
Proof.
  intros Ha Hb H1 H2.
  replace (a ++ ")" ++ w1 ++ "," ++ w2 ++ "(" ++ b)
    with (a ++ (")" ++ w1 ++ "," ++ w2 ++ "(") ++ b)
    by (repeat (rewrite append_assoc; cbn [append]); reflexivity).
  apply (split_once _ (Js.is_char ")")); auto.
  - intros. now apply parenComma_only_at.
  - discriminate.
  - intros total. repeat (rewrite append_assoc; cbn [append]).
    now apply (parenComma_at_spaced_boundary total w1 w2 b).
Qed.

Lemma split_double_spaced (a w1 w2 w3 w4 b : string) :
  Js.free_of ")" a = true -> Js.free_of ")" b = true ->
  Js.all_chars Js.is_space w1 = true -> Js.all_chars Js.is_space w2 = true ->
  Js.all_chars Js.is_space w3 = true -> Js.all_chars Js.is_space w4 = true ->
  Js.split WKT.doubleParenComma
    (a ++ ")" ++ w1 ++ ")" ++ w2 ++ "," ++ w3 ++ "(" ++ w4 ++ "(" ++ b) = [a; b].
Proof.
  intros Ha Hb H1 H2 H3 H4.
  replace (a ++ ")" ++ w1 ++ ")" ++ w2 ++ "," ++ w3 ++ "(" ++ w4 ++ "(" ++ b)
    with (a ++ (")" ++ w1 ++ ")" ++ w2 ++ "," ++ w3 ++ "(" ++ w4 ++ "(") ++ b)
    by (repeat (rewrite append_assoc; cbn [append]); reflexivity).
  apply (split_once _ (Js.is_char ")")); auto.
  - intros. now apply doubleParenComma_only_at.
  - discriminate.
  - intros total. repeat (rewrite append_assoc; cbn [append]).
    now apply (doubleParenComma_at_spaced_boundary total w1 w2 w3 w4 b).
Qed.

(** ** Texts of several groups are cut at the boundaries of the groups *)

(** X26.  Used as the separator of a split, [parenComma] cuts a text
    made of any number of groups joined at a closing and an opening
    parenthesis into these groups, and [doubleParenComma] cuts a text
    made of groups of groups joined at two closing and two opening
    parentheses into its groups of groups.  The commas inside a group
    cut nothing, and white space around the comma of a boundary, or
    between its parentheses, changes nothing. *)
Theorem patterns_cut_at_group_boundaries :
  (forall ts : list string,
      ts <> [] -> Forall (fun t => Js.free_of ")" t = true) ts ->
      Js.split WKT.parenComma ("(" ++ Js.join "),(" ts ++ ")") = frame "(" ")" ts)
  /\ (forall tss : list (list string),
      tss <> [] -> Forall (Forall (fun t => Js.free_of ")" t = true)) tss ->
      Js.split WKT.doubleParenComma
        ("((" ++ Js.join ")),((" (map (Js.join "),(") tss) ++ "))") =
      frame "((" "))" (map (Js.join "),(") tss))
  /\ (forall a b w1 w2 w3 w4 : string,
      Js.free_of ")" a = true -> Js.free_of ")" b = true ->
      Js.all_chars Js.is_space w1 = true -> Js.all_chars Js.is_space w2 = true ->
      Js.all_chars Js.is_space w3 = true -> Js.all_chars Js.is_space w4 = true ->
      Js.split WKT.parenComma (a ++ ")" ++ w1 ++ "," ++ w2 ++ "(" ++ b) = [a; b]
      /\ Js.split WKT.doubleParenComma
           (a ++ ")" ++ w3 ++ ")" ++ w1 ++ "," ++ w2 ++ "(" ++ w4 ++ "(" ++ b) = [a; b]).
Proof.
  split; [exact split_paren_groups|].
  split; [exact split_double_paren_groups|].
  intros a b w1 w2 w3 w4 Ha Hb H1 H2 H3 H4.
  split; [now apply split_spaced | now apply split_double_spaced].
Qed.

Lemma patterns_cut_at_group_boundaries_witness :
  Js.split WKT.parenComma ("(" ++ Js.join "),(" ["0 0,1 1"; "2 2,3 3"] ++ ")") =
  ["(0 0,1 1"; "2 2,3 3)"].
Proof.
  refine (proj1 patterns_cut_at_group_boundaries ["0 0,1 1"; "2 2,3 3"] _ _).
  - discriminate.
  - repeat constructor.
Defined.

(** ** Characters of a keyword *)

Lemma all_chars_implied (p q : ascii -> bool) (s : string) :
  (forall c, p c = true -> q c = true) -> Js.all_chars p s = true -> Js.all_chars q s = true.
Proof.
  intros Hpq. induction s as [|c s IH]; cbn [Js.all_chars]; [reflexivity|].
  intros H. apply andb_prop in H. destruct H as [Hc Hs]. now rewrite (Hpq c Hc), IH.
Qed.

Lemma word_is_dot (c : ascii) : Js.is_word c = true -> Js.is_dot c = true.
Proof. destruct c as [[] [] [] [] [] [] [] []]; vm_compute; congruence. Qed.

(** * More properties of the codecs *)

(** ** Line breaks *)

Lemma unbroken_append (a b : string) : unbroken (a ++ b) = unbroken a ++ unbroken b.
Proof.
  unfold unbroken. induction a as [|c a IH]; [reflexivity|].
  cbn [append Js.map_string]. now rewrite IH.
Qed.

Lemma unbroken_dots (s : string) : Js.all_chars Js.is_dot s = true -> unbroken s = s.
Proof.
  unfold unbroken. induction s as [|c s IH]; [reflexivity|].
  cbn [Js.all_chars Js.map_string]. intros H. apply andb_prop in H. destruct H as [Hc Hs].
  unfold Js.is_dot in Hc. apply negb_true_iff in Hc. now rewrite Hc, IH.
Qed.

Lemma unbroken_is_dots (s : string) : Js.all_chars Js.is_dot (unbroken s) = true.
Proof.
  unfold unbroken. induction s as [|c s IH]; [reflexivity|].
  cbn [Js.map_string Js.all_chars]. rewrite IH.
  destruct (Js.is_newline c) eqn:Hc; [reflexivity|]. unfold Js.is_dot. now rewrite Hc.
Qed.

Lemma search_lineBreak_at (total : nat) (a : string) (c : ascii) (b : string) :
  Js.all_chars Js.is_dot a = true -> Js.is_newline c = true ->
  Js.search total WKT.lineBreak (a ++ String c b) = Some (a, b, []).
Proof.
  intros Ha Hc. induction a as [|d a IH]; cbn [append Js.search].
  - unfold Js.match_here, WKT.lineBreak. cbn [Js.rmatch]. now rewrite Hc.
  - cbn [Js.all_chars] in Ha. apply andb_prop in Ha. destruct Ha as [Hd Ha].
    unfold Js.is_dot in Hd. apply negb_true_iff in Hd.
    unfold Js.match_here, WKT.lineBreak at 1. cbn [Js.rmatch]. rewrite Hd.
    now rewrite IH.
Qed.

Lemma replace_all_from_lineBreak (fuel total : nat) :
  forall s, String.length s < fuel ->
            Js.replace_all_from fuel total WKT.lineBreak [Js.Lit " "] s = unbroken s.
Proof.
  induction fuel as [|fuel IH]; intros s Hf; [lia|].
  cbn [Js.replace_all_from].
  destruct (run_and_rest Js.is_dot s) as (a & t & -> & Ha & Ht).
  destruct t as [|c b].
  - rewrite append_empty_r. rewrite search_lineBreak by exact Ha. now rewrite unbroken_dots.
  - cbn [Js.not_headed] in Ht. unfold Js.is_dot in Ht. apply negb_false_iff in Ht.
    rewrite search_lineBreak_at by assumption.
    rewrite length_append in *. cbn [String.length] in *.
    replace (Nat.ltb (String.length b) (String.length a + S (String.length b))) with true
      by (symmetry; apply Nat.ltb_lt; lia).
    rewrite IH by lia. rewrite unbroken_append, (unbroken_dots a Ha).
    unfold unbroken at 2. cbn [Js.map_string Js.expand append]. now rewrite Ht.
Qed.

(** [wkt.replace] with the pattern for line breaks puts a space for each
    of them. *)
Lemma replace_line_breaks (s : string) :
  Js.replace_all WKT.lineBreak [Js.Lit " "] s = unbroken s.
Proof. apply replace_all_from_lineBreak. lia. Qed.

(** ** The outer form with white space *)

Section GivingBack.

Import Js.

Context {R : Type}.
Variables (p : ascii -> bool) (k : string -> captures -> option R).
Variable body : string -> captures -> (string -> captures -> option R) -> option R.
Hypothesis body_is_char :
  forall s caps k',
    body s caps k' =
    match s with
    | String c s' => if p c then k' s' caps else None
    | EmptyString => None
    end.

(** A greedy run over a text after none of whose characters the rest of
    the pattern matches takes nothing. *)
Lemma iterate_greedy_stays (v : string) :
  forall fuel caps,
    (forall v1 v2, v = v1 ++ v2 -> v1 <> "" -> k v2 caps = None) ->
    iterate body true k fuel v caps = k v caps.
Proof.
  induction v as [|c v IH]; intros fuel caps Hk.
  - destruct fuel as [|fuel]; [reflexivity|]. cbn [iterate]. now rewrite body_is_char.
  - destruct fuel as [|fuel]; [reflexivity|]. cbn [iterate]. rewrite body_is_char.
    destruct (p c); [|reflexivity].
    destruct (Nat.ltb _ _); [|reflexivity].
    rewrite IH.
    + now rewrite (Hk (String c "") v eq_refl) by discriminate.
    + intros v1 v2 E Hne. apply (Hk (String c v1) v2); [|discriminate].
      cbn [append]. now rewrite E.
Qed.

(** A greedy run up to the end of the text gives back the shortest end
    that the rest of the pattern matches. *)
Lemma iterate_greedy_back (u v : string) :
  forall fuel caps x,
    all_chars p u = true ->
    String.length (u ++ v) <= fuel ->
    (forall v1 v2, v = v1 ++ v2 -> v1 <> "" -> k v2 caps = None) ->
    k v caps = Some x ->
    iterate body true k fuel (u ++ v) caps = Some x.
Proof.
  induction u as [|d u IH]; intros fuel caps x Hu Hf Hnone Hk.
  - cbn [append]. now rewrite iterate_greedy_stays.
  - cbn [all_chars] in Hu. apply andb_prop in Hu. destruct Hu as [Hd Hu].
    cbn [append String.length] in *. destruct fuel as [|fuel]; [lia|].
    cbn [iterate]. rewrite body_is_char, Hd.
    replace (Nat.ltb (String.length (u ++ v)) (String.length (String d (u ++ v)))) with true
      by (symmetry; apply Nat.ltb_lt; simpl; lia).
    rewrite (IH fuel caps x) by (auto; lia). reflexivity.
Qed.

End GivingBack.

Lemma space_run total (w t : string) (caps : Js.captures)
      (k : string -> Js.captures -> option (string * Js.captures)) x :
  Js.all_chars Js.is_space w = true -> Js.not_headed Js.is_space t ->
  k t caps = Some x ->
  Js.rmatch total Js.ws (w ++ t) caps k = Some x.
Proof.
  intros Hw Ht Hk. unfold Js.ws. rewrite rmatch_Star.
  apply (iterate_greedy_run Js.is_space); auto using rmatch_Chr.
Qed.

Lemma space_is_no_word (c : ascii) : Js.is_space c = true -> Js.is_word c = false.
Proof.
  destruct c as [[] [] [] [] [] [] [] []]; vm_compute; intros H;
    first [discriminate H | reflexivity].
Qed.

(** The end of [typeStr] after its second group, at the end of all white
    space: no closing parenthesis is found there. *)
Lemma no_closing_in_spaces total (v : string) (caps : Js.captures) :
  Js.all_chars Js.is_space v = true ->
  Js.rmatch total (Js.Seq Js.ws (Js.Seq (Js.lit ")") (Js.Seq Js.ws Js.Eol))) v caps
    (fun s' caps' => Some (s', caps')) = None.
Proof.
  intros Hv. rewrite rmatch_Seq. unfold Js.ws at 1. rewrite rmatch_Star.
  rewrite <- (append_empty_r v) at 2.
  apply (iterate_greedy_fails Js.is_space); auto using rmatch_Chr; [exact I|].
  intros w1 w2 E. rewrite append_empty_r, rmatch_Seq. unfold Js.lit. rewrite rmatch_Chr.
  destruct w2 as [|c w2]; [reflexivity|].
  subst v. rewrite all_chars_append in Hv. apply andb_prop in Hv. destruct Hv as [_ Hv].
  cbn [Js.all_chars] in Hv. apply andb_prop in Hv. destruct Hv as [Hc _].
  destruct (Js.is_char ")" c) eqn:E; [|reflexivity].
  apply closing_paren_is in E. subst c. discriminate Hc.
Qed.

Lemma closing_and_spaces total (w : string) (caps : Js.captures) :
  Js.all_chars Js.is_space w = true ->
  Js.rmatch total (Js.Seq Js.ws (Js.Seq (Js.lit ")") (Js.Seq Js.ws Js.Eol)))
    (String ")" w) caps (fun s' caps' => Some (s', caps')) = Some ("", caps).
Proof.
  intros Hw. rewrite rmatch_Seq, no_spaces_here by reflexivity.
  rewrite rmatch_Seq. unfold Js.lit. rewrite rmatch_Chr.
  change (Js.is_char ")" ")") with true. cbv iota.
  now rewrite spaces_to_the_end, Hw.
Qed.

Lemma suffix_of_spaces (w v1 v2 : string) :
  Js.all_chars Js.is_space w = true -> String ")" w = v1 ++ v2 -> v1 <> "" ->
  Js.all_chars Js.is_space v2 = true.
Proof.
  intros Hw E Hne. destruct v1 as [|c v1]; [congruence|].
  cbn [append] in E. injection E as _ E. subst w.
  rewrite all_chars_append in Hw. now apply andb_prop in Hw.
Qed.

(** The outer form: white space, a keyword, white space, a body within
    parentheses (taken up to the last closing one), white space. *)
Lemma typeStr_spaced (w1 keyword w2 w3 body w4 : string) :
  Js.all_chars Js.is_space w1 = true -> Js.all_chars Js.is_space w2 = true ->
  Js.all_chars Js.is_space w3 = true -> Js.all_chars Js.is_space w4 = true ->
  keyword <> "" -> Js.all_chars Js.is_word keyword = true ->
  Js.all_chars Js.is_dot (body ++ ")" ++ w4) = true ->
  Js.not_headed Js.is_space (body ++ ")") ->
  Js.exec WKT.typeStr (w1 ++ keyword ++ w2 ++ "(" ++ w3 ++ body ++ ")" ++ w4) =
  Some [(2, body); (1, keyword)].
Proof.
  intros H1 H2 H3 H4 Hne Hword Hdot Hbody.
  set (s := w1 ++ keyword ++ w2 ++ "(" ++ w3 ++ body ++ ")" ++ w4).
  assert (Hm : Js.match_here (String.length s) WKT.typeStr s =
               Some ("", [(2, body); (1, keyword)])).
  { unfold Js.match_here, WKT.typeStr. cbn [Js.seq].
    rewrite rmatch_Seq, rmatch_Bol, Nat.eqb_refl, rmatch_Seq.
    destruct keyword as [|c rest]; [congruence|].
    cbn [Js.all_chars] in Hword. apply andb_prop in Hword. destruct Hword as [Hc Hrest].
    subst s. apply space_run; [exact H1 | cbn [append Js.not_headed]; now apply word_is_no_space |].
    cbn [append].
    rewrite rmatch_Seq, rmatch_Group. unfold Js.Plus. rewrite rmatch_Seq, rmatch_Chr, Hc.
    rewrite rmatch_Star.
    apply (iterate_greedy_run Js.is_word); auto using rmatch_Chr.
    { destruct w2 as [|d w2]; cbn [append Js.not_headed]; [reflexivity|].
      cbn [Js.all_chars] in H2. apply andb_prop in H2. destruct H2 as [Hd _].
      now apply space_is_no_word. }
    replace (Js.consumed (String c (rest ++ w2 ++ String "(" (w3 ++ body ++ String ")" w4)))
               (w2 ++ String "(" (w3 ++ body ++ String ")" w4)))
      with (String c rest)
      by (symmetry;
          apply (consumed_prefix (String c rest) (w2 ++ String "(" (w3 ++ body ++ String ")" w4)))).
    rewrite rmatch_Seq. apply space_run; [exact H2 | reflexivity |].
    rewrite rmatch_Seq. unfold Js.lit at 1. rewrite rmatch_Chr.
    change (Js.is_char "(" "(") with true. cbv iota.
    rewrite rmatch_Seq.
    apply space_run; [exact H3 | |].
    { destruct body; [reflexivity | exact Hbody]. }
    rewrite rmatch_Seq, rmatch_Group, rmatch_Star.
    rewrite all_chars_append in Hdot. apply andb_prop in Hdot. destruct Hdot as [Hb Hdot].
    apply (iterate_greedy_back Js.is_dot); auto using rmatch_Chr.
    - intros v1 v2 E Hv. apply no_closing_in_spaces.
      now apply (suffix_of_spaces w4 v1 v2).
    - rewrite (consumed_prefix body (String ")" w4)). now apply closing_and_spaces. }
  unfold Js.exec. fold s. now rewrite (search_here _ _ _ _ _ Hm).
Qed.

(** ** What [read] does with a text of the outer form *)

Lemma unbroken_spaces (w : string) :
  Js.all_chars Js.is_space w = true -> Js.all_chars Js.is_space (unbroken w) = true.
Proof.
  unfold unbroken. induction w as [|c w IH]; [reflexivity|].
  cbn [Js.all_chars Js.map_string]. intros H. apply andb_prop in H. destruct H as [Hc Hw].
  rewrite IH by exact Hw. destruct (Js.is_newline c); [reflexivity | now rewrite Hc].
Qed.

Lemma unbroken_word (kw : string) : Js.all_chars Js.is_word kw = true -> unbroken kw = kw.
Proof.
  intros H. apply unbroken_dots. revert H. apply all_chars_implied, word_is_dot.
Qed.

Lemma unbroken_head (body x : string) :
  Js.not_headed Js.is_space (body ++ ")") -> Js.not_headed Js.is_space (unbroken body ++ ")").
Proof.
  destruct body as [|c body]; [exact (fun H => H)|].
  unfold unbroken. cbn [append Js.map_string Js.not_headed].
  destruct c as [[] [] [] [] [] [] [] []]; vm_compute; congruence.
Qed.

Lemma read_dispatch (w1 kw w2 w3 body w4 : string) :
  Js.all_chars Js.is_space w1 = true -> Js.all_chars Js.is_space w2 = true ->
  Js.all_chars Js.is_space w3 = true -> Js.all_chars Js.is_space w4 = true ->
  kw <> "" -> Js.all_chars Js.is_word kw = true ->
  Js.not_headed Js.is_space (body ++ ")") ->
  WKT.read (w1 ++ kw ++ w2 ++ "(" ++ w3 ++ body ++ ")" ++ w4) =
  match WKT.parse (Js.toLowerCase kw) with
  | WKT.Parser f => f (unbroken body)
  | WKT.ObjectConstructor => Normal (WKT.StringObject (unbroken body))
  | WKT.ObjectPrototype => Throw (TypeError "this.parse[type].apply is not a function")
  | WKT.NoProperty => Normal WKT.Undefined
  end.
Proof.
  intros H1 H2 H3 H4 Hne Hword Hbody. unfold WKT.read.
  rewrite replace_line_breaks, !unbroken_append, (unbroken_word kw Hword).
  change (unbroken "(") with "(". change (unbroken ")") with ")".
  rewrite typeStr_spaced; auto using unbroken_spaces.
  - rewrite all_chars_append. cbn [append Js.all_chars]. now rewrite !unbroken_is_dots.
  - now apply unbroken_head.
Qed.

(** ** Texts that [read] takes alike *)

Lemma lower_not_empty (kw1 kw2 : string) :
  kw1 <> "" -> Js.toLowerCase kw1 = Js.toLowerCase kw2 -> kw2 <> "".
Proof. destruct kw1, kw2; cbn; congruence. Qed.

(** X1.  White space (line breaks too) in front of the keyword, on
    either side of the opening parenthesis and after the closing one
    changes nothing in what [read] gives. *)
Theorem white_space_around_the_outer_form (w1 kw w2 w3 body w4 : string) :
  Js.all_chars Js.is_space w1 = true -> Js.all_chars Js.is_space w2 = true ->
  Js.all_chars Js.is_space w3 = true -> Js.all_chars Js.is_space w4 = true ->
  kw <> "" -> Js.all_chars Js.is_word kw = true ->
  Js.not_headed Js.is_space (body ++ ")") ->
  WKT.read (w1 ++ kw ++ w2 ++ "(" ++ w3 ++ body ++ ")" ++ w4) =
  WKT.read (kw ++ "(" ++ body ++ ")").
Proof.
  intros H1 H2 H3 H4 Hne Hword Hbody.
  rewrite read_dispatch by assumption.
  pose proof (read_dispatch "" kw "" "" body "" eq_refl eq_refl eq_refl eq_refl
                Hne Hword Hbody) as E.
  symmetry. exact E.
Qed.

Lemma white_space_around_the_outer_form_witness :
  WKT.read ("  " ++ "POINT" ++ " " ++ "(" ++ " " ++ "1 2" ++ ")" ++ " ") =
  WKT.read ("POINT" ++ "(" ++ "1 2" ++ ")").
Proof.
  exact (white_space_around_the_outer_form "  " "POINT" " " " " "1 2" " "
           eq_refl eq_refl eq_refl eq_refl ltac:(discriminate) eq_refl eq_refl).
Defined.

(** X2.  The keyword is looked up in lower case: two keywords that
    differ in the case of their letters only give the same result. *)
Theorem keyword_case_does_not_matter (kw1 kw2 body : string) :
  kw1 <> "" -> Js.all_chars Js.is_word kw1 = true -> Js.all_chars Js.is_word kw2 = true ->
  Js.toLowerCase kw1 = Js.toLowerCase kw2 ->
  Js.not_headed Js.is_space (body ++ ")") ->
  WKT.read (kw1 ++ "(" ++ body ++ ")") = WKT.read (kw2 ++ "(" ++ body ++ ")").
Proof.
  intros Hne H1 H2 Hlow Hbody.
  pose proof (read_dispatch "" kw1 "" "" body "" eq_refl eq_refl eq_refl eq_refl
                Hne H1 Hbody) as E1.
  pose proof (read_dispatch "" kw2 "" "" body "" eq_refl eq_refl eq_refl eq_refl
                (lower_not_empty kw1 kw2 Hne Hlow) H2 Hbody) as E2.
  etransitivity; [exact E1|]. rewrite Hlow. symmetry. exact E2.
Qed.

Lemma keyword_case_does_not_matter_witness :
  WKT.read ("Point" ++ "(" ++ "1 2" ++ ")") = WKT.read ("POINT" ++ "(" ++ "1 2" ++ ")").
Proof.
  exact (keyword_case_does_not_matter "Point" "POINT" "1 2"
           ltac:(discriminate) eq_refl eq_refl eq_refl eq_refl).
Defined.

Lemma unbroken_twice (s : string) : unbroken (unbroken s) = unbroken s.
Proof. apply unbroken_dots, unbroken_is_dots. Qed.

(** X3.  A line feed or a carriage return anywhere in the text is read
    as a space. *)
Theorem line_breaks_read_as_spaces (wkt : string) :
  WKT.read wkt = WKT.read (unbroken wkt).
Proof. unfold WKT.read. now rewrite !replace_line_breaks, unbroken_twice. Qed.

(** X4.  A text of the outer form whose keyword, in lower case, is
    neither one of the seven kinds nor one of the two property names
    that every object inherits gives [undefined]: nothing is thrown. *)
Theorem unknown_keyword_gives_nothing (w1 kw w2 w3 body w4 : string) :
  Js.all_chars Js.is_space w1 = true -> Js.all_chars Js.is_space w2 = true ->
  Js.all_chars Js.is_space w3 = true -> Js.all_chars Js.is_space w4 = true ->
  kw <> "" -> Js.all_chars Js.is_word kw = true ->
  Js.not_headed Js.is_space (body ++ ")") ->
  WKT.supported (Js.toLowerCase kw) = false ->
  Js.toLowerCase kw <> "constructor" -> Js.toLowerCase kw <> "__proto__" ->
  WKT.read (w1 ++ kw ++ w2 ++ "(" ++ w3 ++ body ++ ")" ++ w4) = Normal WKT.Undefined.
Proof.
  intros H1 H2 H3 H4 Hne Hword Hbody Hs Hc Hp.
  rewrite read_dispatch by assumption.
  unfold WKT.supported in Hs. unfold WKT.parse, WKT.feature_parser.
  repeat (apply orb_false_elim in Hs; destruct Hs as [Hs ?]).
  repeat match goal with E : String.eqb _ _ = false |- _ => rewrite E; clear E end.
  apply String.eqb_neq in Hc, Hp. now rewrite Hc, Hp.
Qed.

Lemma unknown_keyword_gives_nothing_witness :
  WKT.read ("" ++ "NOTAGEOM" ++ " " ++ "(" ++ "" ++ "1 2" ++ ")" ++ "") = Normal WKT.Undefined.
Proof.
  refine (unknown_keyword_gives_nothing "" "NOTAGEOM" " " "" "1 2" ""
            eq_refl eq_refl eq_refl eq_refl _ eq_refl eq_refl eq_refl _ _); discriminate.
Defined.

(** ** Texts without a parenthesis *)

Section Failing.

Import Js.

Context {R : Type}.
Variable P : string -> Prop.
Hypothesis P_tail : forall c s, P (String c s) -> P s.
Variable total : nat.

Lemma iterate_fails
      (body : string -> captures -> (string -> captures -> option R) -> option R)
      (g : bool) (k : string -> captures -> option R) :
  (forall s caps, P s -> k s caps = None) ->
  (forall s caps k', P s -> (forall s' caps', P s' -> k' s' caps' = None) ->
                     body s caps k' = None) ->
  forall fuel s caps, P s -> iterate body g k fuel s caps = None.
Proof.
  intros Hk Hbody. induction fuel as [|fuel IH]; intros s caps Hs; cbn [iterate].
  - now apply Hk.
  - rewrite (Hk s caps Hs), Hbody; [now destruct g | exact Hs |].
    intros s' caps' Hs'. destruct (Nat.ltb _ _); [now apply IH | reflexivity].
Qed.

(** When what follows a pattern matches no text of [P], the pattern
    followed by it matches none either. *)
Lemma rmatch_fails (r : regex) :
  forall (k : string -> captures -> option R) s caps,
    (forall s' caps', P s' -> k s' caps' = None) -> P s ->
    rmatch total r s caps k = None.
Proof.
  induction r as [|p|r1 IH1 r2 IH2|r1 IH1|g r1 IH1|n r1 IH1| |]; intros k s caps Hk Hs;
    cbn [rmatch].
  - now apply Hk.
  - destruct s as [|c s]; [reflexivity|]. destruct (p c); [|reflexivity].
    apply Hk. now apply (P_tail c).
  - apply IH1; [|exact Hs]. intros s' caps' Hs'. now apply IH2.
  - rewrite IH1 by assumption. now apply Hk.
  - apply iterate_fails; auto.
  - apply IH1; [|exact Hs]. intros s' caps' Hs'. now apply Hk.
  - destruct (Nat.eqb _ _); [now apply Hk | reflexivity].
  - destruct s; [now apply Hk | reflexivity].
Qed.

Lemma rmatch_Seq_fails (r1 r2 : regex) (k : string -> captures -> option R) :
  (forall s caps, P s -> rmatch total r2 s caps k = None) ->
  forall s caps, P s -> rmatch total (Seq r1 r2) s caps k = None.
Proof.
  intros H2 s caps Hs. cbn [rmatch]. apply rmatch_fails; [|exact Hs].
  intros s' caps' Hs'. now apply H2.
Qed.

End Failing.

Lemma free_of_tail (a c : ascii) (s : string) :
  Js.free_of a (String c s) = true -> Js.free_of a s = true.
Proof. unfold Js.free_of. cbn [Js.all_chars]. intros H. now apply andb_prop in H. Qed.

Lemma lit_fails {R : Type} total (a : ascii) (r : Js.regex)
      (k : string -> Js.captures -> option R) (s : string) (caps : Js.captures) :
  Js.free_of a s = true -> Js.rmatch total (Js.Seq (Js.lit a) r) s caps k = None.
Proof.
  destruct s as [|c s]; [reflexivity|]. unfold Js.free_of. cbn [Js.all_chars]. intros H.
  apply andb_prop in H. destruct H as [H _]. apply negb_true_iff in H.
  rewrite rmatch_Seq. unfold Js.lit. now rewrite rmatch_Chr, H.
Qed.

Lemma typeStr_needs_parentheses total (s : string) :
  Js.free_of "(" s = true \/ Js.free_of ")" s = true ->
  Js.match_here total WKT.typeStr s = None.
Proof.
  unfold Js.match_here, WKT.typeStr. cbn [Js.seq]. intros [H|H].
  - revert H. generalize (@nil (nat * string)). revert s.
    do 4 (apply (rmatch_Seq_fails (fun s => Js.free_of "(" s = true) (free_of_tail "("))).
    intros s caps H. now apply lit_fails.
  - revert H. generalize (@nil (nat * string)). revert s.
    do 8 (apply (rmatch_Seq_fails (fun s => Js.free_of ")" s = true) (free_of_tail ")"))).
    intros s caps H. now apply lit_fails.
Qed.

Lemma search_typeStr_fails total (s : string) :
  Js.free_of "(" s = true \/ Js.free_of ")" s = true ->
  Js.search total WKT.typeStr s = None.
Proof.
  induction s as [|c s IH]; intros H; cbn [Js.search];
    rewrite typeStr_needs_parentheses by exact H; [reflexivity|].
  rewrite IH; [reflexivity|]. destruct H as [H|H]; [left | right]; now apply free_of_tail in H.
Qed.

Lemma unbroken_free (a : ascii) (s : string) :
  Js.is_space a = false -> Js.free_of a s = true -> Js.free_of a (unbroken s) = true.
Proof.
  intros Ha. unfold Js.free_of, unbroken. induction s as [|c s IH]; [reflexivity|].
  cbn [Js.all_chars Js.map_string]. intros H. apply andb_prop in H. destruct H as [Hc Hs].
  rewrite IH by exact Hs. destruct (Js.is_newline c); [|now rewrite Hc].
  rewrite andb_true_r. apply negb_true_iff. unfold Js.is_char.
  destruct (Ascii.eqb a " ") eqn:E; [|reflexivity].
  apply Ascii.eqb_eq in E. subst a. discriminate Ha.
Qed.

(** X5.  A text without an opening parenthesis, or without a closing
    one, has not the outer form: [read] gives [undefined]. *)
Theorem no_parentheses_no_result (wkt : string) :
  Js.free_of "(" wkt = true \/ Js.free_of ")" wkt = true ->
  WKT.read wkt = Normal WKT.Undefined.
Proof.
  intros H. unfold WKT.read, Js.exec. rewrite replace_line_breaks.
  rewrite search_typeStr_fails; [reflexivity|].
  destruct H as [H|H]; [left | right]; now apply unbroken_free.
Qed.

Lemma no_parentheses_no_result_witness : WKT.read "POINT 1 2" = Normal WKT.Undefined.
Proof. exact (no_parentheses_no_result "POINT 1 2" (or_introl eq_refl)). Defined.

(** ** What [write] makes of an array *)

Lemma join_nothing_cons (x : string) (l : list string) :
  Js.join "" (x :: l) = x ++ Js.join "" l.
Proof. destruct l; cbn [Js.join append]; [now rewrite append_empty_r | reflexivity]. Qed.

Lemma join_nothing_last (l : list string) (x : string) :
  Js.join "" (l ++ [x])%list = Js.join "" l ++ x.
Proof.
  induction l as [|y l IH]; [reflexivity|].
  change ((y :: l) ++ [x])%list with (y :: (l ++ [x])%list).
  now rewrite !join_nothing_cons, IH, append_assoc.
Qed.

Lemma join_commas (t : string) (ts : list string) :
  Js.join "," (t :: ts) = t ++ fold_right (fun x acc => "," ++ x ++ acc) "" ts.
Proof.
  revert t. induction ts as [|t2 ts IH]; intros t.
  - cbn [Js.join fold_right]. now rewrite append_empty_r.
  - change (Js.join "," (t :: t2 :: ts)) with (t ++ "," ++ Js.join "," (t2 :: ts)).
    rewrite IH. cbn [fold_right append]. now rewrite ?append_assoc.
Qed.

(** The pieces pushed for the members after the first, joined. *)
Lemma later_pieces (fs : list Feature) :
  forall i,
    (pieces <- WKT.write_pieces true (S i) fs ;; Normal (Js.join "" pieces)) =
    (array <- mapM (fun f => member_text (geometry f)) fs ;;
     Normal (fold_right (fun x acc => "," ++ x ++ acc) "" array)).
Proof.
  induction fs as [|f fs IH]; intros i; [reflexivity|].
  cbn [WKT.write_pieces mapM]. unfold member_text at 1.
  destruct (WKT.extractGeometry (geometry f)) as [d|e]; cbn [bind]; [|reflexivity].
  specialize (IH (S i)).
  destruct (WKT.write_pieces true (S (S i)) fs) as [more|e];
    destruct (mapM _ fs) as [array|e']; cbn [bind] in *; try congruence.
  injection IH as IH. cbn [andb Nat.ltb Nat.leb app fold_right].
  now rewrite !join_nothing_cons, IH.
Qed.

Lemma array_pieces (fs : list Feature) :
  WKT.write (WKT.Several fs) =
  (array <- mapM (fun f => member_text (geometry f)) fs ;;
   Normal ("GEOMETRYCOLLECTION(" ++ Js.join "," array ++ ")")).
Proof.
  unfold WKT.write. destruct fs as [|f fs]; [reflexivity|].
  cbn [WKT.write_pieces mapM]. unfold member_text at 1.
  destruct (WKT.extractGeometry (geometry f)) as [d|e]; cbn [bind]; [|reflexivity].
  pose proof (later_pieces fs 0) as IH.
  destruct (WKT.write_pieces true 1 fs) as [more|e];
    destruct (mapM _ fs) as [array|e']; cbn [bind] in *; try congruence.
  injection IH as IH. cbn [andb Nat.ltb Nat.leb app].
  rewrite join_nothing_cons.
  change (WKT.piece d :: (more ++ [")"])%list) with ((WKT.piece d :: more) ++ [")"])%list.
  rewrite join_nothing_last, join_nothing_cons, IH, join_commas.
  now rewrite !append_assoc.
Qed.

Lemma mapM_map (A B C : Type) (g : A -> B) (f : B -> Completion C) (l : list A) :
  mapM f (map g l) = mapM (fun a => f (g a)) l.
Proof. induction l as [|a l IH]; [reflexivity|]. cbn [map mapM]. now rewrite IH. Qed.

Lemma collection_members (cs : list Geometry) :
  WKT.extractGeometry (Compound Collection cs) =
  (array <- mapM member_text cs ;;
   Normal (Some ("GEOMETRYCOLLECTION(" ++ Js.join "," array ++ ")"))).
Proof.
  cbn [WKT.extractGeometry].
  change (WKT.type_of (Compound Collection cs)) with "collection".
  cbn [WKT.extract String.eqb Ascii.eqb Bool.eqb].
  assert (Heach : forall l,
             (fix each (l : list Geometry) : Completion (list string) :=
                match l with
                | [] => Normal []
                | c :: l' =>
                    s <- WKT.extractGeometry c ;;
                    ss <- each l' ;;
                    Normal (WKT.piece s :: ss)
                end) l = mapM member_text l).
  { induction l as [|c l IH]; [reflexivity|]. cbn [mapM]. unfold member_text at 1.
    destruct (WKT.extractGeometry c); cbn [bind]; [now rewrite IH | reflexivity]. }
  rewrite Heach. destruct (mapM member_text cs); reflexivity.
Qed.

(** X10.  An array of features is written as the collection of their
    geometries is: the same text, or the same exception. *)
Theorem array_written_as_collection (fs : list Feature) :
  WKT.write (WKT.Several fs) =
  WKT.write (WKT.Single (Vector (Compound Collection (map geometry fs)))).
Proof.
  rewrite array_pieces. unfold WKT.write. cbn [WKT.write_pieces geometry].
  rewrite collection_members, mapM_map.
  destruct (mapM _ fs) as [array|e]; cbn [bind]; [|reflexivity].
  cbn [WKT.piece andb app Js.join]. reflexivity.
Qed.

Lemma single_member (f : Feature) :
  WKT.write (WKT.Single f) = member_text (geometry f).
Proof.
  unfold WKT.write, member_text. cbn [WKT.write_pieces].
  destruct (WKT.extractGeometry (geometry f)); reflexivity.
Qed.

(** X11.  The text written for an array is [GEOMETRYCOLLECTION], and
    within parentheses the texts written for its features one by one,
    with commas between them. *)
Theorem array_joins_its_members (fs : list Feature) (texts : list string) :
  Forall2 (fun f text => WKT.write (WKT.Single f) = Normal text) fs texts ->
  WKT.write (WKT.Several fs) =
  Normal ("GEOMETRYCOLLECTION(" ++ Js.join "," texts ++ ")").
Proof.
  intros H. rewrite array_pieces.
  assert (E : mapM (fun f => member_text (geometry f)) fs = Normal texts).
  { induction H as [|f text fs texts Hf _ IH]; [reflexivity|].
    cbn [mapM]. rewrite single_member in Hf. now rewrite Hf, IH. }
  now rewrite E.
Qed.

Lemma array_joins_its_members_witness :
  WKT.write (WKT.Several [Vector Fixtures.point; Vector Fixtures.linestring]) =
  Normal ("GEOMETRYCOLLECTION(" ++ Js.join "," ["POINT(30 -10)"; "LINESTRING(30 10,10 30,40 40)"]
          ++ ")").
Proof.
  refine (array_joins_its_members [Vector Fixtures.point; Vector Fixtures.linestring]
            ["POINT(30 -10)"; "LINESTRING(30 10,10 30,40 40)"] _).
  apply Forall2_cons; [vm_compute; reflexivity|].
  apply Forall2_cons; [vm_compute; reflexivity|].
  apply Forall2_nil.
Defined.

(** X12.  There is no extractor for a linear ring: written on its own
    it gives the empty text, and as the member of an array an empty
    place; inside a polygon it is written as a line. *)
Theorem ring_alone_is_not_written (cs : list Geometry) :
  WKT.write (WKT.Single (Vector (Compound LinearRing cs))) = Normal ""
  /\ WKT.write (WKT.Several [Vector Fixtures.point; Vector (Compound LinearRing cs)]) =
     Normal "GEOMETRYCOLLECTION(POINT(30 -10),)"
  /\ WKT.write (WKT.Single (Vector (Compound Polygon [Compound LinearRing cs]))) =
     Normal ("POLYGON((" ++ line_text cs ++ "))").
Proof.
  split; [reflexivity | split; [reflexivity|]].
  unfold WKT.write. cbn [WKT.write_pieces geometry WKT.extractGeometry].
  change (WKT.type_of (Compound Polygon [Compound LinearRing cs])) with "polygon".
  cbn [WKT.extract String.eqb Ascii.eqb Bool.eqb]. unfold WKT.extract_polygon.
  cbn [WKT.components components_of bind mapM WKT.wrapped WKT.extract_linestring Js.join].
  unfold WKT.wrap. cbn [WKT.piece app andb Js.join append]. unfold line_text.
  now rewrite !append_assoc.
Qed.

(** ** The parsers of the six kinds *)

Lemma split_from_cons (fuel total : nat) (r : Js.regex) :
  forall piece s, exists first rest, Js.split_from fuel total r piece s = first :: rest.
Proof.
  induction fuel as [|fuel IH]; intros piece s; cbn [Js.split_from]; [now eexists; eexists|].
  destruct s as [|c s]; [now eexists; eexists|].
  destruct (Js.match_here total r (String c s)) as [[rest m]|]; [|apply IH].
  destruct (_ && _); [apply IH | now eexists; eexists].
Qed.

(** Cutting a text at a pattern that needs a character to match gives
    one piece at least. *)
Lemma split_cons (r : Js.regex) (s : string) :
  Js.match_here 0 r "" = None -> exists first rest, Js.split r s = first :: rest.
Proof.
  intros H. unfold Js.split. destruct s as [|c s].
  - rewrite H. now eexists; eexists.
  - apply split_from_cons.
Qed.

Lemma mapM_first_throws {A B : Type} (f : A -> Completion B) (e : Error) (l : list A) :
  (forall a, f a = Throw e) -> l <> [] -> mapM f l = Throw e.
Proof.
  intros H Hl. destruct l as [|a l]; [congruence|]. cbn [mapM]. now rewrite H.
Qed.

Lemma parse_point_throws (str : string) :
  WKT.parse_point str = Throw WKT.Supermap_not_defined.
Proof. reflexivity. Qed.

Lemma split_char_not_nil (sep : ascii) (s : string) : Js.split_char sep s <> [].
Proof.
  unfold Js.split_char. destruct (split_char_from_cons sep s "") as (first & rest & ->).
  discriminate.
Qed.

Lemma split_parenComma_not_nil (s : string) : Js.split WKT.parenComma s <> [].
Proof.
  destruct (split_cons WKT.parenComma s) as (first & rest & ->); [|discriminate].
  now apply parenComma_only_at.
Qed.

Lemma split_doubleParenComma_not_nil (s : string) : Js.split WKT.doubleParenComma s <> [].
Proof.
  destruct (split_cons WKT.doubleParenComma s) as (first & rest & ->); [|discriminate].
  now apply doubleParenComma_only_at.
Qed.

Lemma parse_multipoint_throws (str : string) :
  WKT.parse_multipoint str = Throw WKT.Supermap_not_defined.
Proof.
  unfold WKT.parse_multipoint.
  rewrite (mapM_first_throws _ WKT.Supermap_not_defined);
    [reflexivity | reflexivity | apply split_char_not_nil].
Qed.

Lemma parse_linestring_throws (str : string) :
  WKT.parse_linestring str = Throw WKT.Supermap_not_defined.
Proof.
  unfold WKT.parse_linestring.
  rewrite (mapM_first_throws _ WKT.Supermap_not_defined);
    [reflexivity | reflexivity | apply split_char_not_nil].
Qed.

Lemma parse_multilinestring_throws (str : string) :
  WKT.parse_multilinestring str = Throw WKT.Supermap_not_defined.
Proof.
  unfold WKT.parse_multilinestring.
  rewrite (mapM_first_throws _ WKT.Supermap_not_defined);
    [reflexivity | | apply split_parenComma_not_nil].
  intros line. unfold WKT.geometry_of. now rewrite parse_linestring_throws.
Qed.

Lemma parse_polygon_throws (str : string) :
  WKT.parse_polygon str = Throw WKT.Supermap_not_defined.
Proof.
  unfold WKT.parse_polygon.
  rewrite (mapM_first_throws _ WKT.Supermap_not_defined);
    [reflexivity | | apply split_parenComma_not_nil].
  intros ring. unfold WKT.geometry_of. now rewrite parse_linestring_throws.
Qed.

Lemma parse_multipolygon_throws (str : string) :
  WKT.parse_multipolygon str = Throw WKT.Supermap_not_defined.
Proof.
  unfold WKT.parse_multipolygon.
  rewrite (mapM_first_throws _ WKT.Supermap_not_defined);
    [reflexivity | | apply split_doubleParenComma_not_nil].
  intros polygon. unfold WKT.geometry_of. now rewrite parse_polygon_throws.
Qed.

Lemma parse_geometrycollection_throws (str : string) :
  WKT.parse_geometrycollection str = Throw (TypeError "WKT.read is not a function").
Proof.
  unfold WKT.parse_geometrycollection, WKT.collection_fragments.
  rewrite (mapM_first_throws _ (TypeError "WKT.read is not a function"));
    [reflexivity | reflexivity | apply split_char_not_nil].
Qed.

(** ** What the parsers of the table give *)

Lemma feature_parser_throws (f : string -> Completion Feature) (e : Error) :
  (forall str, f str = Throw e) ->
  forall str, (feature <- f str ;; Normal (WKT.OneFeature feature)) = Throw e.
Proof. intros H str. now rewrite H. Qed.

Lemma parser_of_six_throws (type : string) :
  builds_geometry type = true ->
  exists f, WKT.parse type = WKT.Parser f
            /\ forall str, f str = Throw WKT.Supermap_not_defined.
Proof.
  unfold builds_geometry, WKT.parse, WKT.feature_parser. intros H.
  destruct (String.eqb type "point");
    [eexists; split; [reflexivity | apply feature_parser_throws, parse_point_throws]|].
  destruct (String.eqb type "multipoint");
    [eexists; split; [reflexivity | apply feature_parser_throws, parse_multipoint_throws]|].
  destruct (String.eqb type "linestring");
    [eexists; split; [reflexivity | apply feature_parser_throws, parse_linestring_throws]|].
  destruct (String.eqb type "multilinestring");
    [eexists; split; [reflexivity | apply feature_parser_throws, parse_multilinestring_throws]|].
  destruct (String.eqb type "polygon");
    [eexists; split; [reflexivity | apply feature_parser_throws, parse_polygon_throws]|].
  destruct (String.eqb type "multipolygon");
    [eexists; split; [reflexivity | apply feature_parser_throws, parse_multipolygon_throws]|].
  discriminate.
Qed.

(** No slot of the table holds a parser that returns. *)
Lemma parser_never_returns (type : string) (f : string -> Completion WKT.Features) :
  WKT.parse type = WKT.Parser f -> forall str, exists e, f str = Throw e.
Proof.
  unfold WKT.parse, WKT.feature_parser. intros H str.
  repeat match type of H with
         | (if ?b then _ else _) = _ => destruct b
         end;
    try discriminate; injection H as <-; cbv beta;
    rewrite ?parse_multipoint_throws, ?parse_linestring_throws, ?parse_multilinestring_throws,
      ?parse_polygon_throws, ?parse_multipolygon_throws, ?parse_geometrycollection_throws;
    eexists; reflexivity.
Qed.

(** ** Texts of the outer form with any body *)

Lemma leading_spaces (s : string) :
  exists w body, s = w ++ body /\ Js.all_chars Js.is_space w = true
                 /\ Js.not_headed Js.is_space (body ++ ")").
Proof.
  induction s as [|c s (w & body & E & Hw & Hb)].
  - exists "", "". repeat split.
  - destruct (Js.is_space c) eqn:Hc.
    + exists (String c w), body. cbn [append Js.all_chars]. rewrite Hc, Hw, <- E. now repeat split.
    + exists "", (String c s). cbn [append Js.all_chars Js.not_headed]. now repeat split.
Qed.

Lemma read_any_body (w1 kw w2 data w4 : string) :
  Js.all_chars Js.is_space w1 = true -> Js.all_chars Js.is_space w2 = true ->
  Js.all_chars Js.is_space w4 = true ->
  kw <> "" -> Js.all_chars Js.is_word kw = true ->
  exists str,
    WKT.read (w1 ++ kw ++ w2 ++ "(" ++ data ++ ")" ++ w4) =
    match WKT.parse (Js.toLowerCase kw) with
    | WKT.Parser f => f str
    | WKT.ObjectConstructor => Normal (WKT.StringObject str)
    | WKT.ObjectPrototype => Throw (TypeError "this.parse[type].apply is not a function")
    | WKT.NoProperty => Normal WKT.Undefined
    end.
Proof.
  intros H1 H2 H4 Hne Hword.
  destruct (leading_spaces data) as (w3 & body & -> & H3 & Hb).
  exists (unbroken body). rewrite (append_assoc w3 body).
  apply read_dispatch; assumption.
Qed.

(** A text of the outer form whose keyword names one of the six kinds
    makes [read] throw, whatever its body. *)
Lemma read_six_kinds (w1 kw w2 data w4 : string) :
  Js.all_chars Js.is_space w1 = true -> Js.all_chars Js.is_space w2 = true ->
  Js.all_chars Js.is_space w4 = true ->
  Js.all_chars Js.is_word kw = true ->
  builds_geometry (Js.toLowerCase kw) = true ->
  WKT.read (w1 ++ kw ++ w2 ++ "(" ++ data ++ ")" ++ w4) = Throw WKT.Supermap_not_defined.
Proof.
  intros H1 H2 H4 Hword Hsix.
  assert (Hne : kw <> "") by (intros ->; discriminate Hsix).
  destruct (read_any_body w1 kw w2 data w4 H1 H2 H4 Hne Hword) as (str & ->).
  destruct (parser_of_six_throws _ Hsix) as (f & -> & Hf). apply Hf.
Qed.

Lemma read_collection_text (data : string) :
  WKT.read ("GEOMETRYCOLLECTION(" ++ data ++ ")") = Throw (TypeError "WKT.read is not a function").
Proof.
  destruct (read_any_body "" "GEOMETRYCOLLECTION" "" data "" eq_refl eq_refl eq_refl
              ltac:(discriminate) eq_refl) as (str & E).
  etransitivity; [exact E|].
  change (WKT.parse (Js.toLowerCase "GEOMETRYCOLLECTION"))
    with (WKT.Parser WKT.parse_geometrycollection).
  apply parse_geometrycollection_throws.
Qed.

(** ** The body of a point *)

(** C7.  The parser of a point cuts the body at white space and then
    names the class of the point through [Supermap]: for every body, of
    numbers or not, it throws a reference error, and so does [read] on
    every text with the keyword of a point.  No point is built, and a
    body that is not numeric gives an exception, not an absent
    result. *)
Theorem point_parser_always_throws :
  (forall str : string, WKT.parse_point str = Throw WKT.Supermap_not_defined)
  /\ (forall body : string,
        WKT.read ("POINT(" ++ body ++ ")") = Throw WKT.Supermap_not_defined)
  /\ WKT.read "POINT(1 2)" = Throw (ReferenceError "Supermap is not defined")
  /\ WKT.read "POINT(a b)" = Throw (ReferenceError "Supermap is not defined").
Proof.
  split; [exact parse_point_throws | split; [| split; vm_compute; reflexivity]].
  intros body.
  exact (read_six_kinds "" "POINT" "" body "" eq_refl eq_refl eq_refl eq_refl eq_refl).
Qed.

(** ** Bodies of several groups *)

(** C5.  The parsers of a multi-line string, a polygon and a
    multi-polygon cut their body at the boundaries of its groups, and
    hand the first group to the parser of a line string, which hands
    its first piece to the parser of a point: for every body they throw
    a reference error, and [read] throws on the two texts of the
    description.  No line string and no polygon comes out. *)
Theorem groups_are_never_decoded :
  (forall str : string, WKT.parse_multilinestring str = Throw WKT.Supermap_not_defined)
  /\ (forall str : string, WKT.parse_polygon str = Throw WKT.Supermap_not_defined)
  /\ (forall str : string, WKT.parse_multipolygon str = Throw WKT.Supermap_not_defined)
  /\ (forall kw body : string,
        In kw ["MULTILINESTRING"; "POLYGON"; "MULTIPOLYGON"] ->
        WKT.read (kw ++ "(" ++ body ++ ")") = Throw WKT.Supermap_not_defined)
  /\ WKT.read "MULTILINESTRING((0 0,1 1),(2 2,3 3))" =
       Throw (ReferenceError "Supermap is not defined")
  /\ WKT.read "MULTIPOLYGON(((0 0,1 0,1 1,0 0)),((2 2,3 2,3 3,2 2)))" =
       Throw (ReferenceError "Supermap is not defined").
Proof.
  split; [exact parse_multilinestring_throws|].
  split; [exact parse_polygon_throws|].
  split; [exact parse_multipolygon_throws|].
  split; [| split; vm_compute; reflexivity].
  intros kw body [<-|[<-|[<-|[]]]].
  - exact (read_six_kinds "" "MULTILINESTRING" "" body "" eq_refl eq_refl eq_refl eq_refl
             eq_refl).
  - exact (read_six_kinds "" "POLYGON" "" body "" eq_refl eq_refl eq_refl eq_refl eq_refl).
  - exact (read_six_kinds "" "MULTIPOLYGON" "" body "" eq_refl eq_refl eq_refl eq_refl
             eq_refl).
Qed.

(** ** Reading what was written *)

Lemma write_single (g : Geometry) :
  WKT.write (WKT.Single (Vector g)) =
  (data <- WKT.extractGeometry g ;; Normal (WKT.piece data)).
Proof.
  unfold WKT.write. cbn [WKT.write_pieces geometry].
  destruct (WKT.extractGeometry g); reflexivity.
Qed.

Lemma extractGeometry_unfold (g : Geometry) :
  WKT.extractGeometry g =
  match WKT.extract (WKT.type_of g) with
  | None => Normal None
  | Some ex =>
      body <-
        match ex with
        | WKT.ExPoint => Normal (WKT.extract_point g)
        | WKT.ExMultiPoint => WKT.extract_multipoint g
        | WKT.ExLineString => WKT.extract_linestring g
        | WKT.ExMultiLineString => WKT.extract_multilinestring g
        | WKT.ExPolygon => WKT.extract_polygon g
        | WKT.ExMultiPolygon => WKT.extract_multipolygon g
        | WKT.ExCollection =>
            match g with
            | Point _ _ => Throw WKT.no_components
            | Compound _ cs =>
                array <- mapM member_text cs ;;
                Normal (Js.join "," array)
            end
        end ;;
      Normal (Some ((if String.eqb (WKT.type_of g) "collection" then "GEOMETRYCOLLECTION"
                     else Js.toUpperCase (WKT.type_of g)) ++ "(" ++ body ++ ")"))
  end.
Proof.
  destruct g as [x y|cls cs]; [reflexivity|].
  destruct cls; try reflexivity.
  rewrite collection_members.
  change (WKT.type_of (Compound Collection cs)) with "collection".
  cbn [WKT.extract String.eqb Ascii.eqb Bool.eqb].
  destruct (mapM member_text cs); reflexivity.
Qed.

(** The text written for a geometry of one of the six kinds, or for a
    collection, makes [read] throw. *)
Lemma read_written_geometry (g : Geometry) (text : string) :
  WKT.extractGeometry g = Normal (Some text) ->
  WKT.read text =
  Throw (match g with
         | Compound Collection _ => TypeError "WKT.read is not a function"
         | _ => WKT.Supermap_not_defined
         end).
Proof.
  rewrite extractGeometry_unfold.
  destruct g as [x y|cls cs]; [|destruct cls];
    match goal with
    | |- context [WKT.type_of ?g] =>
        let t := eval vm_compute in (WKT.type_of g) in
        change (WKT.type_of g) with t
    end;
    cbn [WKT.extract String.eqb Ascii.eqb Bool.eqb];
    try discriminate;
    match goal with
    | |- (body <- ?c ;; _) = _ -> _ => destruct c as [body|e]; cbn [bind]; [|discriminate]
    end;
    intros H; injection H as <-.
  all: try apply read_collection_text.
  - exact (read_six_kinds "" "POINT" "" body "" eq_refl eq_refl eq_refl eq_refl eq_refl).
  - exact (read_six_kinds "" "MULTIPOINT" "" body "" eq_refl eq_refl eq_refl eq_refl eq_refl).
  - exact (read_six_kinds "" "LINESTRING" "" body "" eq_refl eq_refl eq_refl eq_refl eq_refl).
  - exact (read_six_kinds "" "MULTILINESTRING" "" body "" eq_refl eq_refl eq_refl eq_refl eq_refl).
  - exact (read_six_kinds "" "POLYGON" "" body "" eq_refl eq_refl eq_refl eq_refl eq_refl).
  - exact (read_six_kinds "" "MULTIPOLYGON" "" body "" eq_refl eq_refl eq_refl eq_refl eq_refl).
Qed.

(** C1.  Whatever [write] gives for a feature or an array of features,
    [read] does not give the features back for it.  The text written
    for a point, a multi-point, a line string, a multi-line string, a
    polygon or a multi-polygon makes [read] throw a reference error:
    the parsers name the geometry classes through [Supermap], which is
    not defined.  The text written for a collection or for an array
    makes it throw a type error.  A linear ring on its own is written
    as the empty text, which is read as [undefined]. *)
Theorem written_text_is_not_read_back (arg : WKT.WriteArg) (text : string) :
  WKT.write arg = Normal text ->
  WKT.read text =
  match arg with
  | WKT.Several _ | WKT.Single (Vector (Compound Collection _)) =>
      Throw (TypeError "WKT.read is not a function")
  | WKT.Single (Vector (Compound LinearRing _)) => Normal WKT.Undefined
  | WKT.Single _ => Throw (ReferenceError "Supermap is not defined")
  end.
Proof.
  destruct arg as [[g]|fs].
  - rewrite write_single.
    destruct (WKT.extractGeometry g) as [[data|]|e] eqn:E; cbn [bind WKT.piece];
      [| |discriminate]; intros H; injection H as <-.
    + rewrite (read_written_geometry g data E).
      destruct g as [x y|[] cs]; try reflexivity.
      rewrite extractGeometry_unfold in E. discriminate E.
    + rewrite extractGeometry_unfold in E.
      destruct g as [x y|[] cs];
        match type of E with
        | context [WKT.type_of ?g] =>
            let t := eval vm_compute in (WKT.type_of g) in
            change (WKT.type_of g) with t in E
        end;
        cbn [WKT.extract String.eqb Ascii.eqb Bool.eqb] in E;
        try reflexivity;
        match type of E with
        | (body <- ?c ;; _) = _ => destruct c; discriminate E
        end.
  - rewrite array_pieces.
    destruct (mapM _ fs) as [array|e]; cbn [bind]; [|discriminate].
    intros H; injection H as <-. apply read_collection_text.
Qed.

Lemma written_text_is_not_read_back_witness :
  Forall (fun g => exists text,
              WKT.write (WKT.Single (Vector g)) = Normal text
              /\ WKT.read text = Throw (ReferenceError "Supermap is not defined"))
         Fixtures.single_kinds
  /\ Forall (fun arg => exists text,
                WKT.write arg = Normal text
                /\ WKT.read text = Throw (TypeError "WKT.read is not a function"))
            [Fixtures.collection; Fixtures.collection2].
Proof.
  split.
  - repeat apply Forall_cons; [..|apply Forall_nil];
      match goal with
      | |- exists _, WKT.write ?arg = _ /\ _ =>
          eexists; split;
          [vm_compute; reflexivity
          |refine (written_text_is_not_read_back arg _ _); vm_compute; reflexivity]
      end.
  - repeat apply Forall_cons; [..|apply Forall_nil];
      match goal with
      | |- exists _, WKT.write ?arg = _ /\ _ =>
          eexists; split;
          [vm_compute; reflexivity
          |refine (written_text_is_not_read_back arg _ _); vm_compute; reflexivity]
      end.
Defined.

(** ** What [read] can give *)

(** X25.  [read] never gives a feature or an array of features: every
    parser of the table throws.  A call either throws, or gives
    [undefined], or, for the keyword [constructor] and no other, gives
    the body in a wrapped string. *)
Theorem read_gives_no_feature (wkt : string) :
  (exists e, WKT.read wkt = Throw e)
  \/ WKT.read wkt = Normal WKT.Undefined
  \/ (exists str, WKT.read wkt = Normal (WKT.StringObject str)
                  /\ WKT.keyword wkt = Some "constructor").
Proof.
  unfold WKT.read, WKT.keyword.
  destruct (Js.exec WKT.typeStr _) as [matches|]; [|now right; left].
  destruct (WKT.parse (Js.toLowerCase (WKT.capture 1 matches))) as [f| | |] eqn:E.
  - left. exact (parser_never_returns _ f E (WKT.capture 2 matches)).
  - right. right. eexists. split; [reflexivity|]. f_equal.
    revert E. unfold WKT.parse.
    repeat match goal with
           | |- (if ?b then _ else _) = _ -> _ => destruct b eqn:?; try discriminate
           end.
    intros _. now apply String.eqb_eq.
  - left. now eexists.
  - now right; left.
Qed.

(** ** More on [Route.fromJson] *)

Lemma lines_follow_the_partition_witness :
  exists lineList,
    Route.lines PointWithMeasure.fromJson PointWithMeasure.equals
      (Fixtures.closed_part ++ Fixtures.open_part) [4%Z; 3%Z] 0 = Normal lineList
    /\ List.length lineList = List.length [4%Z; 3%Z]
    /\ Z.of_nat (Partition.count_points lineList) = Partition.sum [4%Z; 3%Z].
Proof.
  refine (lines_follow_the_partition (Fixtures.closed_part ++ Fixtures.open_part)
            [4%Z; 3%Z] _ _).
  - repeat constructor; lia.
  - reflexivity.
Defined.

(** X14.  The instance that [fromJson] returns holds the seven metadata
    of the wire form and its parts as they are, and no components. *)
Theorem metadata_copied_as_they_are
  (F : option Route.PointJson -> Completion (option Route.MeasuredPoint))
  (equals : Route.MeasuredPoint -> option Route.MeasuredPoint -> bool)
  (jsonObject : Route.Json) (route : Route.Route) :
  Route.fromJson F equals (Some jsonObject) = Normal (Route.Instance route) ->
  route =
  {| Route.id := Route.json_id jsonObject; Route.center := Route.json_center jsonObject;
     Route.style := Route.json_style jsonObject; Route.length := Route.json_length jsonObject;
     Route.maxM := Route.json_maxM jsonObject; Route.minM := Route.json_minM jsonObject;
     Route.type := Route.json_type jsonObject; Route.parts := Route.json_parts jsonObject;
     Route.components := None |}.
Proof.
  unfold Route.fromJson.
  destruct (Nat.ltb 0 _); [|discriminate].
  destruct (Route.lines _ _ _ _ _) as [lineList|e]; cbn [bind]; [|discriminate].
  intros H. injection H as <-. reflexivity.
Qed.

Lemma metadata_copied_as_they_are_witness :
  {| Route.id := Some 7%Z; Route.center := None; Route.style := None;
     Route.length := Some 5%Z; Route.maxM := Some 3%Z; Route.minM := Some 0%Z;
     Route.type := Some "LINEM"; Route.parts := Some [4; 3]%Z;
     Route.components := None |} =
  {| Route.id := Route.json_id Fixtures.route_json;
     Route.center := Route.json_center Fixtures.route_json;
     Route.style := Route.json_style Fixtures.route_json;
     Route.length := Route.json_length Fixtures.route_json;
     Route.maxM := Route.json_maxM Fixtures.route_json;
     Route.minM := Route.json_minM Fixtures.route_json;
     Route.type := Route.json_type Fixtures.route_json;
     Route.parts := Route.json_parts Fixtures.route_json;
     Route.components := None |}.
Proof.
  exact (metadata_copied_as_they_are PointWithMeasure.fromJson PointWithMeasure.equals
           Fixtures.route_json _ eq_refl).
Defined.

Section AnyPointReader.

Import Route.

Variable F : option PointJson -> Completion (option MeasuredPoint).
Variable equals : MeasuredPoint -> option MeasuredPoint -> bool.

Lemma part_of_nothing (geoPoints : list PointJson) (pointIndex n : Z) :
  (n <= 0)%Z ->
  (pointList <- part_points F geoPoints pointIndex n ;; classify equals pointList n) =
  Throw no_equals.
Proof.
  intros Hn. unfold part_points, below.
  replace (Z.to_nat n) with 0 by lia. reflexivity.
Qed.

Lemma lines_with_part_of_nothing (geoPoints : list PointJson) (n : Z) (geoParts : list Z) :
  forall pointIndex,
    In n geoParts -> (n <= 0)%Z ->
    exists e, lines F equals geoPoints geoParts pointIndex = Throw e.
Proof.
  induction geoParts as [|m rest IH]; intros pointIndex Hin Hn; [destruct Hin|].
  cbn [lines]. destruct Hin as [->|Hin].
  - pose proof (part_of_nothing geoPoints pointIndex n Hn) as E.
    destruct (part_points F geoPoints pointIndex n) as [pointList|e]; cbn [bind] in *.
    + rewrite E. now eexists.
    + now eexists.
  - destruct (part_points F geoPoints pointIndex m) as [pointList|e]; cbn [bind];
      [|now eexists].
    destruct (classify equals pointList m) as [line|e]; cbn [bind]; [|now eexists].
    destruct (IH (pointIndex + m)%Z Hin Hn) as [e ->]. now eexists.
Qed.

End AnyPointReader.

(** X15.  A part that announces no point (zero, or a negative number)
    makes [fromJson] throw, whatever the points are: the test on the two
    ends of its empty list calls [equals] on nothing. *)
Theorem part_without_points_throws
  (F : option Route.PointJson -> Completion (option Route.MeasuredPoint))
  (equals : Route.MeasuredPoint -> option Route.MeasuredPoint -> bool)
  (jsonObject : Route.Json) (n : Z) :
  In n (Route.or_empty (Route.json_parts jsonObject)) -> (n <= 0)%Z ->
  exists e, Route.fromJson F equals (Some jsonObject) = Throw e.
Proof.
  intros Hin Hn. unfold Route.fromJson.
  destruct (Route.or_empty (Route.json_parts jsonObject)) as [|m rest] eqn:E; [destruct Hin|].
  cbn [List.length Nat.ltb Nat.leb].
  destruct (lines_with_part_of_nothing F equals
              (Route.or_empty (Route.json_points jsonObject)) n (m :: rest) 0%Z Hin Hn)
    as [e ->].
  now eexists.
Qed.

Lemma part_without_points_throws_witness :
  exists e,
    Route.fromJson PointWithMeasure.fromJson PointWithMeasure.equals
      (Some (Fixtures.wire (Some [3; 0]%Z) (Some Fixtures.open_part))) = Throw e.
Proof.
  refine (part_without_points_throws PointWithMeasure.fromJson PointWithMeasure.equals
            (Fixtures.wire (Some [3; 0]%Z) (Some Fixtures.open_part)) 0%Z _ _).
  - right. left. reflexivity.
  - lia.
Defined.

(** ** Points after those that the parts announce *)

Lemma chunks_of_front {A : Type} (parts : list Z) :
  forall (l extra : list A),
    Forall (fun n => (1 <= n)%Z) parts ->
    (Partition.sum parts <= Z.of_nat (List.length l))%Z ->
    Partition.chunks (l ++ extra) parts = Partition.chunks l parts.
Proof.
  induction parts as [|n rest IH]; intros l extra Hparts Hlen; [reflexivity|].
  inversion Hparts as [|? ? Hn Hrest]; subst.
  pose proof (sum_at_least _ Hrest) as Hsum. rewrite sum_cons in Hlen.
  cbn [Partition.chunks].
  assert (Hle : Z.to_nat n <= List.length l) by lia.
  rewrite firstn_app, skipn_app.
  replace (Z.to_nat n - List.length l) with 0 by lia.
  cbn [firstn skipn]. rewrite app_nil_r. f_equal.
  apply IH; [exact Hrest|]. rewrite length_skipn. lia.
Qed.

(** X16.  Points that come after those that the parts announce are not
    read: the loop builds the same lines with them as without. *)
Theorem points_in_excess_are_ignored (geoPoints extra : list Route.PointJson)
        (geoParts : list Z) :
  Forall (fun n => (1 <= n)%Z) geoParts ->
  (Partition.sum geoParts <= Z.of_nat (List.length geoPoints))%Z ->
  Route.lines PointWithMeasure.fromJson PointWithMeasure.equals
    (geoPoints ++ extra) geoParts 0 =
  Route.lines PointWithMeasure.fromJson PointWithMeasure.equals geoPoints geoParts 0.
Proof.
  intros Hparts Hlen.
  rewrite !lines_within; auto; try lia.
  - cbn [Z.to_nat skipn]. now rewrite map_app, chunks_of_front by (rewrite ?length_map; auto).
  - rewrite length_app. lia.
Qed.

Lemma points_in_excess_are_ignored_witness :
  Route.lines PointWithMeasure.fromJson PointWithMeasure.equals
    (Fixtures.closed_part ++ Fixtures.open_part) [4%Z] 0 =
  Route.lines PointWithMeasure.fromJson PointWithMeasure.equals Fixtures.closed_part [4%Z] 0.
Proof.
  refine (points_in_excess_are_ignored Fixtures.closed_part Fixtures.open_part [4%Z] _ _).
  - repeat constructor; lia.
  - vm_compute. discriminate.
Defined.

(** ** The fields of the text that [toJson] builds *)

Lemma with_commas_app (a b : list string) :
  with_commas (a ++ b) = with_commas a ++ with_commas b.
Proof.
  induction a as [|t a IH]; [reflexivity|].
  cbn [app with_commas fold_right] in *. fold (with_commas (a ++ b)). fold (with_commas a).
  now rewrite IH, !append_assoc.
Qed.

Lemma with_commas_join (t : string) (l : list string) :
  with_commas (t :: l) = Js.join "," (t :: l) ++ ",".
Proof.
  revert t. induction l as [|t2 l IH]; intros t.
  - reflexivity.
  - change (with_commas (t :: t2 :: l)) with (t ++ "," ++ with_commas (t2 :: l)).
    rewrite IH.
    change (Js.join "," (t :: t2 :: l)) with (t ++ "," ++ Js.join "," (t2 :: l)).
    now rewrite !append_assoc.
Qed.

(** The comma after the last of the texts goes. *)
Lemma drop_last_with_commas (head : string) (l : list string) :
  Js.drop_last "," head = head ->
  Js.drop_last "," (head ++ with_commas l) = head ++ Js.join "," l.
Proof.
  intros Hhead. destruct l as [|t l].
  - cbn [with_commas fold_right Js.join]. now rewrite append_empty_r.
  - rewrite with_commas_join, <- append_assoc. apply drop_last_comma.
Qed.

Lemma join_last (l : list string) (x : string) :
  Js.join "," (l ++ [x])%list = with_commas l ++ x.
Proof.
  induction l as [|t l IH]; [reflexivity|].
  change ((t :: l) ++ [x])%list with (t :: (l ++ [x])%list).
  destruct l as [|t2 l].
  - cbn [app Js.join with_commas fold_right]. now rewrite !append_assoc.
  - change (Js.join "," (t :: ((t2 :: l) ++ [x])%list))
      with (t ++ "," ++ Js.join "," ((t2 :: l) ++ [x])%list).
    rewrite IH. change (with_commas (t :: t2 :: l)) with (t ++ "," ++ with_commas (t2 :: l)).
    now rewrite !append_assoc.
Qed.

Section Fields.

Import Route.

Variable point_toJson : MeasuredPoint -> string.

Lemma field_step {A : Type} (name : A -> string) (v : option A) (result : string) :
  match v with
  | Some a => result ++ name a ++ ","
  | None => result
  end = result ++ with_commas (field name v).
Proof.
  destruct v; cbn [field with_commas fold_right]; [reflexivity | now rewrite append_empty_r].
Qed.

Lemma type_step (v : option string) (result : string) :
  match v with
  | Some a => result ++ key "type" ++ dq ++ a ++ dq ++ ","
  | None => result
  end = result ++ with_commas (field (fun v => key "type" ++ dq ++ v ++ dq) v).
Proof.
  destruct v; cbn [field with_commas fold_right]; [|now rewrite append_empty_r].
  cbn [append]. now rewrite !append_assoc.
Qed.

Lemma append_parts_join (rest : list Z) (n : Z) :
  Number_toString n ++ append_parts "" rest = Js.join "," (map Number_toString (n :: rest)).
Proof.
  revert n. induction rest as [|m rest IH]; intros n.
  - cbn [append_parts map Js.join]. now rewrite append_empty_r.
  - cbn [append_parts map]. rewrite append_parts_after.
    change (Js.join "," (Number_toString n :: Number_toString m :: map Number_toString rest))
      with (Number_toString n ++ "," ++ Js.join "," (map Number_toString (m :: rest))).
    rewrite <- IH. cbn [append]. reflexivity.
Qed.

Lemma parts_step (ps : option (list Z)) (result : string) :
  match ps with
  | Some ps =>
      let first :=
        match ps with
        | [] => VUndefined
        | n :: _ => VNumber n
        end in
      append_parts (result ++ key "parts" ++ "[" ++ ToString first) (tl ps) ++ "],"
  | None => result
  end = result ++ with_commas (field (fun ps => key "parts" ++ parts_text ps) ps).
Proof.
  destruct ps as [[|n rest]|]; cbn [field with_commas fold_right tl ToString parts_text].
  - cbn [append_parts]. now rewrite !append_assoc.
  - rewrite append_parts_after, <- append_parts_join. now rewrite !append_assoc.
  - now rewrite append_empty_r.
Qed.

(** The text in front of the points: every metadata field that is
    there, with a comma after it. *)
Lemma metadata_written (this : Route) :
  toJson point_toJson this =
  (result <-
     match components this with
     | Some (c :: cs) =>
         result <- append_components point_toJson
                     (("{" ++ with_commas (metadata_texts this)) ++ key "points" ++ "[")
                     (c :: cs) ;;
         Normal (Js.replace_all trailingComma [] result ++ "]")
     | _ => Normal ("{" ++ with_commas (metadata_texts this))
     end ;;
   Normal (Js.replace_all trailingComma [] result ++ "}")).
Proof.
  unfold toJson. cbv zeta.
  rewrite (field_step (fun v => key "id" ++ Number_toString v) (id this)).
  rewrite (field_step (fun v => key "center" ++ Number_toString v) (center this)).
  rewrite (field_step (fun v => key "style" ++ v) (style this)).
  rewrite (field_step (fun v => key "length" ++ Number_toString v) (length this)).
  rewrite (field_step (fun v => key "maxM" ++ Number_toString v) (maxM this)).
  rewrite (field_step (fun v => key "minM" ++ Number_toString v) (minM this)).
  rewrite type_step.
  pose proof (parts_step (parts this)) as Hp. cbv zeta in Hp. rewrite Hp.
  unfold metadata_texts. rewrite !with_commas_app, !append_assoc. reflexivity.
Qed.

Lemma append_points_present (pointList : list (option MeasuredPoint)) :
  forall result,
    ~ In None pointList ->
    append_points point_toJson result pointList =
    Normal (result ++ with_commas (map point_toJson (present_points pointList))).
Proof.
  induction pointList as [|[p|] rest IH]; intros result Hall; cbn [append_points present_points].
  - now rewrite append_empty_r.
  - rewrite IH by (intros H; apply Hall; now right).
    cbn [map]. change (with_commas (point_toJson p :: ?l)) with (point_toJson p ++ "," ++ with_commas l).
    now rewrite !append_assoc.
  - exfalso. apply Hall. now left.
Qed.

Lemma append_points_absent (pointList : list (option MeasuredPoint)) :
  forall result,
    In None pointList -> append_points point_toJson result pointList = Throw no_toJson.
Proof.
  induction pointList as [|[p|] rest IH]; intros result Hin; cbn [append_points].
  - destruct Hin.
  - apply IH. destruct Hin as [H|H]; [discriminate H | exact H].
  - reflexivity.
Qed.

Lemma append_points_throw (pointList : list (option MeasuredPoint)) :
  forall result e,
    append_points point_toJson result pointList = Throw e -> e = no_toJson.
Proof.
  induction pointList as [|[p|] rest IH]; intros result e H; cbn [append_points] in H.
  - discriminate H.
  - now apply IH in H.
  - now injection H.
Qed.

Lemma present_points_app (a b : list (option MeasuredPoint)) :
  present_points (a ++ b) = (present_points a ++ present_points b)%list.
Proof.
  induction a as [|[p|] a IH]; cbn [app present_points]; [reflexivity | now rewrite IH | exact IH].
Qed.

Lemma append_components_present (cs : list Line) :
  forall result,
    ~ In None (all_points cs) ->
    append_components point_toJson result cs =
    Normal (result ++ with_commas (map point_toJson (present_points (all_points cs)))).
Proof.
  unfold all_points.
  induction cs as [|c cs IH]; intros result Hall; cbn [append_components map concat].
  - cbn [present_points map with_commas fold_right]. now rewrite append_empty_r.
  - rewrite append_points_present by (intros H; apply Hall; apply in_or_app; now left).
    cbn [bind]. rewrite IH by (intros H; apply Hall; apply in_or_app; now right).
    now rewrite present_points_app, map_app, with_commas_app, !append_assoc.
Qed.

Lemma append_components_absent (cs : list Line) :
  forall result,
    In None (all_points cs) -> append_components point_toJson result cs = Throw no_toJson.
Proof.
  unfold all_points.
  induction cs as [|c cs IH]; intros result Hin; cbn [append_components map concat] in *.
  - destruct Hin.
  - apply in_app_or in Hin. destruct Hin as [Hin|Hin].
    + now rewrite append_points_absent.
    + destruct (append_points point_toJson result (line_points c)) as [r|e] eqn:E; cbn [bind].
      * now apply IH.
      * apply append_points_throw in E. now subst.
Qed.

End Fields.

Lemma drop_last_bracket (X : string) :
  Js.drop_last "," (X ++ Route.key "points" ++ "[") = X ++ Route.key "points" ++ "[".
Proof. rewrite drop_last_after; [reflexivity | discriminate]. Qed.

Lemma drop_last_closed (X : string) : Js.drop_last "," (X ++ "]") = X ++ "]".
Proof. rewrite drop_last_after; [reflexivity | discriminate]. Qed.

(** X17.  The text that [toJson] builds is, between braces, the fields
    of the route that are there, in the order [id], [center], [style],
    [length], [maxM], [minM], [type], [parts], [points], with one comma
    between two of them and none after the last; an empty [parts] array
    is written as [[undefined]]. *)
Theorem toJson_joins_the_fields (point_toJson : Route.MeasuredPoint -> string)
        (this : Route.Route) :
  (forall cs, Route.components this = Some cs -> ~ In None (all_points cs)) ->
  Route.toJson point_toJson this =
  Normal ("{" ++ Js.join "," (metadata_texts this ++ points_texts point_toJson this) ++ "}").
Proof.
  intros Hall. rewrite metadata_written. unfold points_texts.
  destruct (Route.components this) as [[|c cs]|] eqn:E; cbn [bind].
  - rewrite replace_trailing_comma, drop_last_with_commas by reflexivity.
    now rewrite app_nil_r, !append_assoc.
  - rewrite append_components_present by (now apply Hall). cbn [bind].
    rewrite !replace_trailing_comma.
    set (P := map point_toJson (present_points (all_points (c :: cs)))).
    set (M := metadata_texts this).
    rewrite (drop_last_with_commas _ P (drop_last_bracket ("{" ++ with_commas M))).
    rewrite drop_last_closed, join_last.
    do 3 (cbn [append]; rewrite ?append_assoc). reflexivity.
  - rewrite replace_trailing_comma, drop_last_with_commas by reflexivity.
    now rewrite app_nil_r, !append_assoc.
Qed.

Lemma toJson_joins_the_fields_witness :
  Route.toJson PointWithMeasure.toJson (Fixtures.styled "red") =
  Normal ("{" ++ Js.join "," (metadata_texts (Fixtures.styled "red")
                              ++ points_texts PointWithMeasure.toJson (Fixtures.styled "red"))
          ++ "}").
Proof.
  refine (toJson_joins_the_fields PointWithMeasure.toJson (Fixtures.styled "red") _).
  intros cs E. injection E as <-. cbn. intros H.
  repeat (destruct H as [H|H]; [discriminate H|]). exact H.
Defined.

(** X18.  A component with a point that is not there makes [toJson]
    throw: [toJson] is called on [undefined]. *)
Theorem toJson_of_a_missing_point (point_toJson : Route.MeasuredPoint -> string)
        (this : Route.Route) (cs : list Route.Line) :
  Route.components this = Some cs -> In None (all_points cs) ->
  Route.toJson point_toJson this = Throw Route.no_toJson.
Proof.
  intros E Hin. rewrite metadata_written, E.
  destruct cs as [|c cs]; [destruct Hin|].
  now rewrite append_components_absent.
Qed.

Lemma toJson_of_a_missing_point_witness :
  Route.toJson PointWithMeasure.toJson
    {| Route.id := None; Route.center := None; Route.style := None; Route.length := None;
       Route.maxM := None; Route.minM := None; Route.type := None; Route.parts := Some [2%Z];
       Route.components := Some [Route.LineString [Fixtures.measured 0 0 0; None]] |} =
  Throw Route.no_toJson.
Proof.
  refine (toJson_of_a_missing_point PointWithMeasure.toJson _
            [Route.LineString [Fixtures.measured 0 0 0; None]] _ _).
  - reflexivity.
  - right. left. reflexivity.
Defined.

(** X19.  The text written for a route that [fromJson] returned holds
    the metadata and the parts of the wire form and no points; writing
    it throws nothing and converts no point. *)
Theorem decoded_route_written_without_points
  (F : option Route.PointJson -> Completion (option Route.MeasuredPoint))
  (equals : Route.MeasuredPoint -> option Route.MeasuredPoint -> bool)
  (point_toJson : Route.MeasuredPoint -> string)
  (jsonObject : Route.Json) (route : Route.Route) :
  Route.fromJson F equals (Some jsonObject) = Normal (Route.Instance route) ->
  Route.toJson point_toJson route =
  Normal ("{" ++ Js.join ","
            (metadata_texts
               {| Route.id := Route.json_id jsonObject;
                  Route.center := Route.json_center jsonObject;
                  Route.style := Route.json_style jsonObject;
                  Route.length := Route.json_length jsonObject;
                  Route.maxM := Route.json_maxM jsonObject;
                  Route.minM := Route.json_minM jsonObject;
                  Route.type := Route.json_type jsonObject;
                  Route.parts := Route.json_parts jsonObject;
                  Route.components := None |}) ++ "}").
Proof.
  unfold Route.fromJson.
  destruct (Nat.ltb 0 _); [|discriminate].
  destruct (Route.lines _ _ _ _ _) as [lineList|e]; cbn [bind]; [|discriminate].
  intros H. injection H as <-. rewrite metadata_written.
  cbn [Route.constructor Route.extend Route.initialise_fields Route.components bind].
  rewrite replace_trailing_comma, drop_last_with_commas by reflexivity.
  now rewrite !append_assoc.
Qed.

Lemma decoded_route_written_without_points_witness :
  Route.toJson PointWithMeasure.toJson
    {| Route.id := Some 7%Z; Route.center := None; Route.style := None;
       Route.length := Some 5%Z; Route.maxM := Some 3%Z; Route.minM := Some 0%Z;
       Route.type := Some "LINEM"; Route.parts := Some [4; 3]%Z;
       Route.components := None |} =
  Normal ("{" ++ Js.join ","
            (metadata_texts
               {| Route.id := Route.json_id Fixtures.route_json;
                  Route.center := Route.json_center Fixtures.route_json;
                  Route.style := Route.json_style Fixtures.route_json;
                  Route.length := Route.json_length Fixtures.route_json;
                  Route.maxM := Route.json_maxM Fixtures.route_json;
                  Route.minM := Route.json_minM Fixtures.route_json;
                  Route.type := Route.json_type Fixtures.route_json;
                  Route.parts := Route.json_parts Fixtures.route_json;
                  Route.components := None |}) ++ "}").
Proof.
  exact (decoded_route_written_without_points PointWithMeasure.fromJson
           PointWithMeasure.equals PointWithMeasure.toJson Fixtures.route_json _ eq_refl).
Defined.

(** ** Disposing of a route *)

(** X20.  [destroy] throws on every instance as the constructor leaves
    it: its components are [null], so their length cannot be set.  The
    metadata are cleared by then, [componentTypes] is not. *)
Theorem destroy_of_a_new_route (points : list Route.Line) (options : Route.Options) :
  Disposal.destroy (Disposal.created points options) =
  ({| Disposal.fields := Disposal.cleared;
      Disposal.componentTypes := Disposal.declared_componentTypes |},
   Throw Disposal.no_length).
Proof. reflexivity. Qed.

(** X21.  A second call of [destroy] throws, whatever the first one
    did. *)
Theorem second_destroy_throws (this : Disposal.Instance) :
  snd (Disposal.destroy (fst (Disposal.destroy this))) = Throw Disposal.no_length.
Proof. unfold Disposal.destroy. now destruct (Route.components (Disposal.fields this)). Qed.
